(** * sendingemail: the dispatch pipeline of [internal/sender/mail.go]

    A shallow embedding of the Go package [sender] and of the parts of its
    collaborators that it calls (strings.FieldsFunc, the squirrel query
    builder, database/sql with the conversions of [rows.Scan], strconv and
    time as far as these conversions use them, gopkg.in/mail.v2,
    sync.Mutex), followed by the properties of the fetch, build, send and
    commit steps.

    - The functions of the package are programs: trees of calls to the
      database handle, the clock and the mail transport, whose answers are
      given by a handler.  Properties stated for every handler hold for
      every behaviour of the database and of the relay, errors and
      cancellation included.
    - The table dbo.tb_getEmailWiseSend, the SELECT statement and the two
      stored procedures are modelled by a database server, used where a
      property speaks of the stored rows.  The text of the stored procedures
      is not in the repository: they are parameters of the server.
    - [os.Getenv] is a function from names to values: the package reads the
      environment and never writes it.
    - The calls on the logger and [rows.Close()] are left out: they do not
      touch the database, the transport or the mutex.
    - Go strings are byte sequences; they are embedded as [string] (a list
      of 8-bit [ascii]).  The only rune the package inspects is ';' (0x3B);
      in UTF-8 no byte of a multi-byte sequence is below 0x80, and an invalid
      byte decodes to U+FFFD, so testing bytes against ';' and testing runes
      against ';' select the same positions. *)

From Stdlib Require Import ZArith String Ascii List Lia DecimalString.
From stdpp Require Import base option list sorting strings gmap.

Local Open Scope string_scope.
Local Open Scope list_scope.

(* ===================================================================== *)
(** ** Go values used by the package *)
(* ===================================================================== *)

(** The [error] interface.  [fmt.Errorf("...: %w", err)] builds an error whose
    text is the formatted string and which wraps [err]. *)
Inductive error : Type :=
| errorString (msg : string)
| wrapError (msg : string) (err : error).

Definition Error (e : error) : string :=
  match e with
  | errorString msg => msg
  | wrapError msg _ => msg
  end.

Definition Errorf (prefix : string) (err : error) : error :=
  wrapError (prefix +:+ Error err) err.

Global Instance error_eq_dec : EqDecision error.
Proof. solve_decision. Defined.

(** A fallible Go call returning [(T, error)]: [inl err] is [(zero, err)] and
    [inr v] is [(v, nil)]. *)
Definition result (T : Type) : Type := (error + T)%type.

(* ===================================================================== *)
(** ** package strconv *)
(* ===================================================================== *)

Module strconv.

Definition ErrSyntax : error := errorString "invalid syntax".
Definition ErrRange : error := errorString "value out of range".

(** [FormatInt(i, 10)]. *)
Definition FormatInt (i : Z) : string := NilZero.string_of_int (Z.to_int i).

Definition digitValue (c : ascii) : option Z :=
  let n := Z.of_nat (nat_of_ascii c) in
  if decide (48 <= n <= 57)%Z then Some (n - 48)%Z else None.

(** The loop of [ParseUint(s, 10, 64)]: a character that is not a digit is
    a syntax error, a value above 2^64 - 1 a range error, whichever comes
    first. *)
Fixpoint parseDigits (s : string) (n : Z) : result Z :=
  match s with
  | EmptyString => inr n
  | String c rest =>
      match digitValue c with
      | None => inl ErrSyntax
      | Some d =>
          let n1 := (n * 10 + d)%Z in
          if decide (n1 > 18446744073709551615)%Z then inl ErrRange
          else parseDigits rest n1
      end
  end.

Definition ParseUint (s : string) : result Z :=
  match s with
  | EmptyString => inl ErrSyntax
  | _ => parseDigits s 0%Z
  end.

(** [ParseInt(s, 10, 64)]; the error is the [Err] field of the [*NumError]. *)
Definition ParseInt (s : string) : result Z :=
  match s with
  | EmptyString => inl ErrSyntax
  | String c rest =>
      let neg := bool_decide (c = "-"%char) in
      let body := if decide (c = "+"%char \/ c = "-"%char) then rest else s in
      match ParseUint body with
      | inl err => inl err
      | inr un =>
          if decide (neg = false /\ un >= 9223372036854775808)%Z then inl ErrRange
          else if decide (neg = true /\ un > 9223372036854775808)%Z then inl ErrRange
          else inr (if neg then - un else un)%Z
      end
  end.

End strconv.

(* ===================================================================== *)
(** ** package time *)
(* ===================================================================== *)

(** [time.Time]: an instant and the zone it is shown in. *)
Record time_Time : Type := mkTime {
  unixSec : Z;        (* seconds since 1970-01-01T00:00:00Z *)
  nanosecond : Z;     (* within the second: 0 <= nanosecond < 10^9 *)
  zoneName : string;  (* the abbreviation of the zone, as "UTC" *)
  zoneOffset : Z      (* seconds east of UTC *)
}.

Global Instance time_Time_eq_dec : EqDecision time_Time.
Proof. solve_decision. Defined.

Module time.

Fixpoint zeros (n : nat) : string :=
  match n with
  | O => EmptyString
  | S k => String "0" (zeros k)
  end.

(** [appendInt(b, x, width)]: [x] in decimal, zero-padded to [width]. *)
Definition appendInt (x : Z) (width : nat) : string :=
  let digits := strconv.FormatInt (Z.abs x) in
  (if decide (x < 0)%Z then "-" else EmptyString)
    +:+ zeros (width - String.length digits) +:+ digits.

(** The year, month and day (proleptic Gregorian calendar) of the day
    [days] after 1970-01-01. *)
Definition absDate (days : Z) : Z * Z * Z :=
  let z := (days + 719468)%Z in
  let era := (z / 146097)%Z in
  let doe := (z - era * 146097)%Z in
  let yoe := ((doe - doe / 1460 + doe / 36524 - doe / 146096) / 365)%Z in
  let doy := (doe - (365 * yoe + yoe / 4 - yoe / 100))%Z in
  let mp := ((5 * doy + 2) / 153)%Z in
  let day := (doy - (153 * mp + 2) / 5 + 1)%Z in
  let month := (if decide (mp < 10)%Z then mp + 3 else mp - 9)%Z in
  let year := (yoe + era * 400 + (if decide (month <= 2)%Z then 1 else 0))%Z in
  (year, month, day).

(** The seconds since the epoch on the wall clock of the zone. *)
Definition abs (t : time_Time) : Z := (unixSec t + zoneOffset t)%Z.

(** Layout "2006-01-02". *)
Definition formatDate (t : time_Time) : string :=
  let '(year, month, day) := absDate (abs t / 86400)%Z in
  appendInt year 4 +:+ "-" +:+ appendInt month 2 +:+ "-" +:+ appendInt day 2.

(** Layout "15:04:05". *)
Definition formatClock (t : time_Time) : string :=
  let s := (abs t mod 86400)%Z in
  appendInt (s / 3600) 2 +:+ ":" +:+ appendInt (s mod 3600 / 60) 2
    +:+ ":" +:+ appendInt (s mod 60) 2.

Fixpoint trimZeros (s : string) : string :=
  match s with
  | EmptyString => EmptyString
  | String c rest =>
      match trimZeros rest with
      | EmptyString => if decide (c = "0"%char) then EmptyString else String c EmptyString
      | r => String c r
      end
  end.

(** Layout ".999999999": nothing for a whole second, otherwise the nine
    digits without their trailing zeros. *)
Definition appendNano (nanosec : Z) : string :=
  if decide (nanosec = 0)%Z then EmptyString
  else "." +:+ trimZeros (appendInt nanosec 9).

(** Layouts "-07:00" ([colon]) and "-0700". *)
Definition formatZone (colon : bool) (offset : Z) : string :=
  let zone := Z.quot offset 60 in
  (if decide (zone < 0)%Z then "-" else "+")
    +:+ appendInt (Z.abs zone / 60) 2
    +:+ (if colon then ":" else EmptyString)
    +:+ appendInt (Z.abs zone mod 60) 2.

(** [t.Format(time.RFC3339Nano)], layout
    "2006-01-02T15:04:05.999999999Z07:00". *)
Definition RFC3339Nano (t : time_Time) : string :=
  formatDate t +:+ "T" +:+ formatClock t +:+ appendNano (nanosecond t)
    +:+ (if decide (zoneOffset t = 0)%Z then "Z" else formatZone true (zoneOffset t)).

(** [t.String()], layout "2006-01-02 15:04:05.999999999 -0700 MST" (a value
    read from the database carries no monotonic clock reading). *)
Definition String (t : time_Time) : string :=
  formatDate t +:+ " " +:+ formatClock t +:+ appendNano (nanosecond t)
    +:+ " " +:+ formatZone false (zoneOffset t)
    +:+ " " +:+ (if decide (zoneName t = EmptyString) then formatZone false (zoneOffset t)
                 else zoneName t).

End time.

(* ===================================================================== *)
(** ** package strings *)
(* ===================================================================== *)

Module strings.

(** [FieldsFunc(s, f)]: the maximal runs of characters not satisfying [f].
    The Go loop keeps [start], the index where the field being read began
    ([start < 0] when outside a field); here [cur] holds the characters
    [s[start:end]] read so far, [None] when outside a field. *)
Fixpoint fieldsFrom (f : ascii -> bool) (s : string) (cur : option string)
  : list string :=
  match s with
  | EmptyString =>
      (* Last field might end at EOF. *)
      match cur with
      | Some w => [w]
      | None => []
      end
  | String c rest =>
      if f c then
        match cur with
        | Some w => w :: fieldsFrom f rest None
        | None => fieldsFrom f rest None
        end
      else
        match cur with
        | Some w => fieldsFrom f rest (Some (w +:+ String c EmptyString))
        | None => fieldsFrom f rest (Some (String c EmptyString))
        end
  end.

Definition FieldsFunc (s : string) (f : ascii -> bool) : list string :=
  fieldsFrom f s None.

End strings.

(* ===================================================================== *)
(** ** type Message (mail.go, lines 109-125) *)
(* ===================================================================== *)

Record Message : Type := mkMessage {
  ID : Z;
  TxnNo : string;
  RuleID : string;
  (* Time is the date of the email *)
  Time : string;
  Subject : string;
  Content : string;
  (* One of "SEND", "ADD" *)
  Status : string;
  Comment : string;
  ToAddresses : list string;
  BCCAddresses : list string;
  SentAt : option time_Time
}.

(** [sql.NullString]. *)
Record NullString : Type := mkNullString {
  NString : string;
  Valid : bool
}.

(** The delimiter test passed to [FieldsFunc]: [func(r rune) bool { return r == ';' }]. *)
Definition isSemicolon (r : ascii) : bool :=
  if decide (r = ";"%char) then true else false.

(** Lines 185-190 and 192-198: the recipient list read from a nullable
    column.  The list stays [nil] when the column is NULL. *)
Definition parseAddresses (raw : NullString) : list string :=
  if Valid raw then strings.FieldsFunc (NString raw) isSemicolon else [].

(* ===================================================================== *)
(** ** package mail (gopkg.in/mail.v2), as far as [Send] calls it *)
(* ===================================================================== *)

(** A [mail.Message] is recorded as what the caller handed to the library:
    the header map and the body parts.  Encoding for the wire is done by the
    library and is not part of this model. *)
Module mail.

Record part : Type := mkPart {
  contentType : string;
  body : string
}.

Record Message : Type := mkMessage {
  header : gmap string (list string);
  parts : list part
}.

Definition NewMessage : Message :=
  {| header := ∅; parts := [] |}.

(** [m.SetHeader(field, value...)]: [m.header[field] = value]. *)
Definition SetHeader (field : string) (value : list string) (m : Message) : Message :=
  {| header := <[field := value]> (header m); parts := parts m |}.

(** [m.SetBody(contentType, body)] replaces every part by one. *)
Definition SetBody (ct : string) (b : string) (m : Message) : Message :=
  {| header := header m; parts := [ {| contentType := ct; body := b |} ] |}.

Record Dialer : Type := mkDialer {
  Host : string;
  Port : Z;
  Username : string;
  Password : string
}.

Definition NewDialer (host : string) (port : Z) (username password : string) : Dialer :=
  {| Host := host; Port := port; Username := username; Password := password |}.

End mail.

(** The double quote character, code 34. *)
Definition dquote : string := String "034"%char EmptyString.

(** The opening of the HTML envelope:
    <html><body style=(quote)font-family: Saysettha OT;(quote)> *)
Definition envelopeOpen : string :=
  "<html><body style=" +:+ dquote +:+ "font-family: Saysettha OT;" +:+ dquote +:+ ">".

Definition envelopeClose : string := "</body></html>".

Section Builder.

(** [os.Getenv]: the process environment, which the program only reads. *)
Variable Getenv : string -> string.

(** Lines 74-79: the body of the build loop of [Send]. *)
Definition buildMessage (msg : Message) : mail.Message :=
  let m := mail.NewMessage in
  let m := mail.SetHeader "From" [Getenv "MAIL_FROM"] m in
  let m := mail.SetHeader "To" (ToAddresses msg) m in
  let m := mail.SetHeader "CC" (BCCAddresses msg) m in
  let m := mail.SetHeader "Subject" [Subject msg] m in
  mail.SetBody "text/html" (envelopeOpen +:+ Content msg +:+ envelopeClose) m.

(** Lines 71-83: [messages] after the loop over [rawsMessages]. *)
Fixpoint buildMessages (rawsMessages : list Message) (messages : list mail.Message)
  : list mail.Message :=
  match rawsMessages with
  | [] => messages
  | msg :: rest => buildMessages rest (messages ++ [buildMessage msg])
  end.

End Builder.

(* ===================================================================== *)
(** ** package squirrel (github.com/Masterminds/squirrel), select builder *)
(* ===================================================================== *)

(** The builder calls of [listMailMessages] and what [MustSql] makes of them.
    The SQL text and its argument list are kept as the clauses of the
    statement, each placeholder already paired with its argument:
    [SELECT <columns> FROM <from> WHERE <e1 AND e2 ...> ORDER BY <parts>].

    In squirrel a WHERE clause is a list of parts, joined by AND.  The Go
    declarations that matter here are

      func (b SelectBuilder) Where(pred interface{}, args ...interface{}) SelectBuilder
        // appends newWherePart(pred, args...) to the parts

      func (p wherePart) ToSql() (sql string, args []interface{}, err error) {
        switch pred := p.pred.(type) {
        case Sqlizer:  return pred.ToSql()
        case string:   sql = pred; args = p.args
        ...

    so one call of [Where] adds one part, whose predicate is the first
    argument; the other arguments are placeholder values, used only when the
    predicate is a SQL string. *)
Module sq.

(** [sq.Eq] and [sq.NotEq]: maps from a column to a value, [None] for [nil]. *)
Inductive Sqlizer : Type :=
| Eq (m : list (string * option string))
| NotEq (m : list (string * option string)).

(** One comparison of a WHERE clause. *)
Inductive Expr : Type :=
| ExprEq (col : string) (arg : string)      (* col = @pN *)
| ExprNeq (col : string) (arg : string)     (* col <> @pN *)
| ExprIsNull (col : string)                 (* col IS NULL *)
| ExprIsNotNull (col : string).             (* col IS NOT NULL *)

(** [Eq.ToSql] and [NotEq.ToSql]: one comparison per key, joined by AND. *)
Definition Sqlizer_ToSql (s : Sqlizer) : list Expr :=
  match s with
  | Eq m =>
      map (fun kv => match snd kv with
                     | Some v => ExprEq (fst kv) v
                     | None => ExprIsNull (fst kv)
                     end) m
  | NotEq m =>
      map (fun kv => match snd kv with
                     | Some v => ExprNeq (fst kv) v
                     | None => ExprIsNotNull (fst kv)
                     end) m
  end.

(** [wherePart]: a predicate and the arguments for its placeholders. *)
Record wherePart : Type := newWherePart {
  pred : Sqlizer;
  args : list Sqlizer
}.

(** [wherePart.ToSql]: when [pred] is a [Sqlizer] the result is
    [pred.ToSql()]; [args] is read only when [pred] is a SQL string. *)
Definition wherePart_ToSql (p : wherePart) : list Expr :=
  Sqlizer_ToSql (pred p).

Inductive PlaceholderFormat : Type := Question | AtP.

Record SelectBuilder : Type := mkSelectBuilder {
  Columns : list string;
  FromPart : string;
  WhereParts : list wherePart;
  OrderByParts : list string;
  Placeholder : PlaceholderFormat
}.

Definition Select (columns : list string) : SelectBuilder :=
  {| Columns := columns; FromPart := EmptyString; WhereParts := [];
     OrderByParts := []; Placeholder := Question |}.

Definition From (from : string) (b : SelectBuilder) : SelectBuilder :=
  {| Columns := Columns b; FromPart := from; WhereParts := WhereParts b;
     OrderByParts := OrderByParts b; Placeholder := Placeholder b |}.

Definition SetPlaceholderFormat (f : PlaceholderFormat) (b : SelectBuilder) : SelectBuilder :=
  {| Columns := Columns b; FromPart := FromPart b; WhereParts := WhereParts b;
     OrderByParts := OrderByParts b; Placeholder := f |}.

(** [func (b SelectBuilder) Where(pred interface{}, args ...interface{})]:
    appends ONE part, made of the first argument as predicate and of the
    remaining arguments as its [args]. *)
Definition Where (pred : Sqlizer) (args : list Sqlizer) (b : SelectBuilder) : SelectBuilder :=
  {| Columns := Columns b; FromPart := FromPart b;
     WhereParts := WhereParts b ++ [newWherePart pred args];
     OrderByParts := OrderByParts b; Placeholder := Placeholder b |}.

Definition OrderBy (orderBys : list string) (b : SelectBuilder) : SelectBuilder :=
  {| Columns := Columns b; FromPart := FromPart b; WhereParts := WhereParts b;
     OrderByParts := OrderByParts b ++ orderBys; Placeholder := Placeholder b |}.

Record Statement : Type := mkStatement {
  SelectList : list string;
  FromTable : string;
  WhereExprs : list Expr;
  OrderByList : list string
}.

Definition MustSql (b : SelectBuilder) : Statement :=
  {| SelectList := Columns b;
     FromTable := FromPart b;
     WhereExprs := concat (map wherePart_ToSql (WhereParts b));
     OrderByList := OrderByParts b |}.

End sq.

(* ===================================================================== *)
(** ** package database/sql: values, rows and [Scan] *)
(* ===================================================================== *)

Module sql.

(** A [driver.Value] of a result row, of one of the kinds that the columns
    of the table hold: NULL, [int64], [string], [time.Time].  (A driver may
    also deliver [[]byte], [float64] and [bool] values; they are not part
    of this model.)  [VInt z] stands for an [int64]: [z] is in its range. *)
Inductive value : Type :=
| VNull
| VInt (z : Z)
| VStr (s : string)
| VTime (t : time_Time).

(** [*sql.Rows]: the names of the columns ([rows.Columns()]), the rows the
    cursor delivers (each with one value per column), and the error (if any)
    that ended the iteration, reported by [rows.Err()]. *)
Record Rows : Type := mkRows {
  columns : list string;
  data : list (list value);
  iterErr : option error
}.

(** The name of the Go type of a value, as [%T] prints it. *)
Definition typeName (v : value) : string :=
  match v with
  | VNull => "<nil>"
  | VInt _ => "int64"
  | VStr _ => "string"
  | VTime _ => "time.Time"
  end.

(** [asString(src)]. *)
Definition asString (v : value) : string :=
  match v with
  | VNull => "<nil>"
  | VInt z => strconv.FormatInt z
  | VStr s => s
  | VTime t => time.String t
  end.

(** [convertAssign] into the destination types that [listMailMessages] uses.
    A [*int64] destination takes an integer as it is and parses the text of
    any other value.  ([%q] is written out for texts that need no escape.) *)
Definition scan_int64 (v : value) : result Z :=
  match v with
  | VNull => inl (errorString "converting NULL to int64 is unsupported")
  | VInt z => inr z
  | _ =>
      match strconv.ParseInt (asString v) with
      | inr z => inr z
      | inl err =>
          inl (errorString
                 ("converting driver.Value type " +:+ typeName v +:+ " (" +:+ dquote
                    +:+ asString v +:+ dquote +:+ ") to a int64: " +:+ Error err))
      end
  end.

(** A [*string] destination takes a string as it is, an integer in decimal
    and a time in the layout RFC3339Nano. *)
Definition scan_string (v : value) : result string :=
  match v with
  | VNull => inl (errorString "converting NULL to string is unsupported")
  | VInt z => inr (strconv.FormatInt z)
  | VStr s => inr s
  | VTime t => inr (time.RFC3339Nano t)
  end.

(** [NullString.Scan]: NULL gives the empty [String] and [Valid = false];
    any other value is converted as for a [*string]. *)
Definition scan_NullString (v : value) : result NullString :=
  match v with
  | VNull => inr {| NString := EmptyString; Valid := false |}
  | _ =>
      match scan_string v with
      | inl e => inl e
      | inr s => inr {| NString := s; Valid := true |}
      end
  end.

(** A [**time.Time] destination: NULL gives the nil pointer, a time a
    pointer to it; no other value is converted. *)
Definition scan_TimePtr (v : value) : result (option time_Time) :=
  match v with
  | VNull => inr None
  | VTime t => inr (Some t)
  | _ =>
      inl (errorString
             ("unsupported Scan, storing driver.Value type " +:+ typeName v
                +:+ " into type *time.Time"))
  end.

(** [rows.Scan] wraps the error of a conversion with the index and the name
    of the column. *)
Definition scanError (names : list string) (i : nat) (err : error) : error :=
  Errorf ("sql: Scan error on column index " +:+ NilZero.string_of_uint (Nat.to_uint i)
            +:+ ", name " +:+ dquote +:+ default EmptyString (names !! i) +:+ dquote
            +:+ ": ") err.

(** [rows.Scan] called with [n] destinations on a row of another width. *)
Definition scanCountError (width n : nat) : error :=
  errorString ("sql: expected " +:+ NilZero.string_of_uint (Nat.to_uint width)
                 +:+ " destination arguments in Scan, not "
                 +:+ NilZero.string_of_uint (Nat.to_uint n)).

End sql.

(* ===================================================================== *)
(** ** The storage: table dbo.tb_getEmailWiseSend and the SELECT statement *)
(* ===================================================================== *)

Module storage.

(** A row of dbo.tb_getEmailWiseSend.  TWID is the storage-assigned
    identifier; every other column is nullable. *)
Record Row : Type := mkRow {
  TWID : Z;
  Txnno : option string;
  Ruleid : option string;
  txtdate : option string;
  toaddress : option string;
  bccaddress : option string;
  subjects : option string;
  contents : option string;
  rectype : option string;
  senddatetime : option time_Time;
  comments : option string
}.

Definition str (o : option string) : sql.value :=
  match o with
  | Some s => sql.VStr s
  | None => sql.VNull
  end.

Definition tim (o : option time_Time) : sql.value :=
  match o with
  | Some t => sql.VTime t
  | None => sql.VNull
  end.

(** The columns of the table, by name. *)
Definition schema : list (string * (Row -> sql.value)) :=
  [ ("TWID", fun r => sql.VInt (TWID r));
    ("Txnno", fun r => str (Txnno r));
    ("Ruleid", fun r => str (Ruleid r));
    ("txtdate", fun r => str (txtdate r));
    ("toaddress", fun r => str (toaddress r));
    ("bccaddress", fun r => str (bccaddress r));
    ("subjects", fun r => str (subjects r));
    ("contents", fun r => str (contents r));
    ("rectype", fun r => str (rectype r));
    ("senddatetime", fun r => tim (senddatetime r));
    ("comments", fun r => str (comments r)) ].

Fixpoint assoc {V : Type} (name : string) (l : list (string * V)) : option V :=
  match l with
  | [] => None
  | (k, v) :: rest => if decide (k = name) then Some v else assoc name rest
  end.

Definition column (name : string) (r : Row) : result sql.value :=
  match assoc name schema with
  | Some get => inr (get r)
  | None => inl (errorString ("Invalid column name '" +:+ name +:+ "'."))
  end.

(** A comparison of a WHERE clause on one row.  A comparison with NULL is
    not true; strings are compared exactly (a binary collation). *)
Definition holds (e : sq.Expr) (r : Row) : result bool :=
  match e with
  | sq.ExprEq col arg =>
      match column col r with
      | inl err => inl err
      | inr (sql.VStr s) => inr (if decide (s = arg) then true else false)
      | inr sql.VNull => inr false
      | inr _ => inl (errorString "Conversion failed when comparing with a character string.")
      end
  | sq.ExprNeq col arg =>
      match column col r with
      | inl err => inl err
      | inr (sql.VStr s) => inr (if decide (s = arg) then false else true)
      | inr sql.VNull => inr false
      | inr _ => inl (errorString "Conversion failed when comparing with a character string.")
      end
  | sq.ExprIsNull col =>
      match column col r with
      | inl err => inl err
      | inr sql.VNull => inr true
      | inr _ => inr false
      end
  | sq.ExprIsNotNull col =>
      match column col r with
      | inl err => inl err
      | inr sql.VNull => inr false
      | inr _ => inr true
      end
  end.

(** The conjunction of the comparisons of the WHERE clause. *)
Fixpoint holdsAll (es : list sq.Expr) (r : Row) : result bool :=
  match es with
  | [] => inr true
  | e :: rest =>
      match holds e r with
      | inl err => inl err
      | inr b =>
          match holdsAll rest r with
          | inl err => inl err
          | inr bs => inr (b && bs)
          end
      end
  end.

(** The rows of the table that satisfy the WHERE clause, in table order. *)
Fixpoint selectWhere (es : list sq.Expr) (tb : list Row) : result (list Row) :=
  match tb with
  | [] => inr []
  | r :: rest =>
      match holdsAll es r with
      | inl err => inl err
      | inr b =>
          match selectWhere es rest with
          | inl err => inl err
          | inr rs => inr (if b then r :: rs else rs)
          end
      end
  end.

Definition isSpace (c : ascii) : bool :=
  if decide (c = " "%char) then true else false.

(** The select list, with the [TOP n] that may precede its first item. *)
Definition parseSelectList (items : list string) : result (option nat * list string) :=
  match items with
  | [] => inl (errorString "Incorrect syntax near the keyword 'FROM'.")
  | first :: others =>
      match strings.FieldsFunc first isSpace with
      | [c] => inr (None, c :: others)
      | [kw; n; c] =>
          if decide (kw = "TOP") then
            match NilZero.uint_of_string n with
            | Some d => inr (Some (Nat.of_uint d), c :: others)
            | None => inl (errorString "Incorrect syntax near 'TOP'.")
            end
          else inl (errorString "Incorrect syntax in the select list.")
      | _ => inl (errorString "Incorrect syntax in the select list.")
      end
  end.

(** Ascending order of the identifier. *)
Definition byTWID (r1 r2 : Row) : Prop := (TWID r1 <= TWID r2)%Z.

Global Instance byTWID_dec : RelDecision byTWID.
Proof. intros r1 r2. unfold byTWID. apply _. Defined.

(** ORDER BY: the statement of [listMailMessages] orders by the integer
    column TWID, the only ordering this model evaluates.  (SQL leaves the
    order of rows with equal keys open; here it is the one of [merge_sort].) *)
Definition orderRows (parts : list string) (rs : list Row) : result (list Row) :=
  match parts with
  | [] => inr rs
  | [p] =>
      let tokens := strings.FieldsFunc p isSpace in
      if decide (tokens = ["TWID"] \/ tokens = ["TWID"; "ASC"]) then
        inr (merge_sort byTWID rs)
      else inl (errorString "unsupported ORDER BY")
  | _ => inl (errorString "unsupported ORDER BY")
  end.

Fixpoint project (names : list string) (r : Row) : result (list sql.value) :=
  match names with
  | [] => inr []
  | n :: rest =>
      match column n r with
      | inl err => inl err
      | inr v =>
          match project rest r with
          | inl err => inl err
          | inr vs => inr (v :: vs)
          end
      end
  end.

Fixpoint projectAll (names : list string) (rs : list Row) : result (list (list sql.value)) :=
  match rs with
  | [] => inr []
  | r :: rest =>
      match project names r with
      | inl err => inl err
      | inr vs =>
          match projectAll names rest with
          | inl err => inl err
          | inr vss => inr (vs :: vss)
          end
      end
  end.

(** The names of the columns of the result set. *)
Definition columnNames (st : sq.Statement) : list string :=
  match parseSelectList (sq.SelectList st) with
  | inr (_, names) => names
  | inl _ => []
  end.

(** The result set of a SELECT on the table: filter by WHERE, sort by
    ORDER BY, keep the first TOP rows, project the select list. *)
Definition select (st : sq.Statement) (tb : list Row) : result (list (list sql.value)) :=
  if decide (sq.FromTable st = "dbo.tb_getEmailWiseSend") then
    match parseSelectList (sq.SelectList st) with
    | inl err => inl err
    | inr (top, names) =>
        match selectWhere (sq.WhereExprs st) tb with
        | inl err => inl err
        | inr matching =>
            match orderRows (sq.OrderByList st) matching with
            | inl err => inl err
            | inr ordered =>
                projectAll names
                  match top with
                  | Some n => take n ordered
                  | None => ordered
                  end
            end
        end
    end
  else inl (errorString ("Invalid object name '" +:+ sq.FromTable st +:+ "'.")).

End storage.

(* ===================================================================== *)
(** ** Programs: calls to the outside world *)
(* ===================================================================== *)

(** The calls that the package makes on the database handle, the clock and
    the mail transport, each with the type of what it returns. *)
Inductive Ext : Type -> Type :=
| Today : Ext string
    (* time.Now().Format("2006-01-02") *)
| ExecContext (query : string) (args : list (string * string)) : Ext (option error)
    (* db.ExecContext(ctx, query, sql.Named(name, value)...), result dropped *)
| QueryContext (q : sq.Statement) : Ext (result sql.Rows)
    (* db.QueryContext(ctx, q, args...) *)
| DialAndSend (d : mail.Dialer) (m : list mail.Message) : Ext (option error).
    (* dialer.DialAndSend(m...) *)

(** Events of a goroutine: the two operations of [s.mu] and the calls. *)
Inductive Event : Type -> Type :=
| Lock : Event unit
| Unlock : Event unit
| Call {X : Type} (e : Ext X) : Event X.

(** A program is a tree of events; each continuation receives what the
    event returned. *)
Inductive Prog (A : Type) : Type :=
| Ret (a : A)
| Vis {X : Type} (e : Event X) (k : X -> Prog A).

Arguments Ret {A} a.
Arguments Vis {A X} e k.

Fixpoint bind {A B : Type} (p : Prog A) (f : A -> Prog B) : Prog B :=
  match p with
  | Ret a => f a
  | Vis e k => Vis e (fun x => bind (k x) f)
  end.

Definition trigger {X : Type} (e : Event X) : Prog X := Vis e Ret.

Definition call {X : Type} (e : Ext X) : Prog X := trigger (Call e).

Declare Scope prog_scope.
Delimit Scope prog_scope with prog.
Notation "x <- p ;; q" := (bind p (fun x => q))
  (at level 100, p at next level, right associativity) : prog_scope.
Notation "p ;; q" := (bind p (fun _ => q))
  (at level 100, right associativity) : prog_scope.
Local Open Scope prog_scope.

(* ===================================================================== *)
(** ** package sender (mail.go) *)
(* ===================================================================== *)

(** Lines 133-157: the statement built with squirrel.  [Where] is called
    once, with [sq.Eq{...}] and [sq.NotEq{...}] as its two arguments. *)
Definition pendingQuery (today : string) : sq.Statement :=
  sq.MustSql
    (sq.OrderBy ["TWID ASC"]
      (sq.Where
         (sq.Eq [("rectype", Some "ADD"); ("txtdate", Some today)])
         [sq.NotEq [("toaddress", None)]]
         (sq.SetPlaceholderFormat sq.AtP
           (sq.From "dbo.tb_getEmailWiseSend"
             (sq.Select
                [ "TOP 100 TWID"; "Txnno"; "Ruleid"; "txtdate"; "toaddress";
                  "bccaddress"; "subjects"; "contents"; "rectype";
                  "senddatetime"; "comments" ]))))).

(** Lines 167-200: [rows.Scan] into the eleven destinations, then the two
    recipient lists. *)
Definition scanMessage (names : list string) (cols : list sql.value) : result Message :=
  match cols with
  | [c1; c2; c3; c4; c5; c6; c7; c8; c9; c10; c11] =>
      match sql.scan_int64 c1 with inl e => inl (sql.scanError names 0 e) | inr id =>
      match sql.scan_string c2 with inl e => inl (sql.scanError names 1 e) | inr txnNo =>
      match sql.scan_string c3 with inl e => inl (sql.scanError names 2 e) | inr ruleID =>
      match sql.scan_string c4 with inl e => inl (sql.scanError names 3 e) | inr time =>
      match sql.scan_NullString c5 with inl e => inl (sql.scanError names 4 e) | inr rawToAddress =>
      match sql.scan_NullString c6 with inl e => inl (sql.scanError names 5 e) | inr rowBccAddress =>
      match sql.scan_string c7 with inl e => inl (sql.scanError names 6 e) | inr subject =>
      match sql.scan_string c8 with inl e => inl (sql.scanError names 7 e) | inr content =>
      match sql.scan_string c9 with inl e => inl (sql.scanError names 8 e) | inr status =>
      match sql.scan_TimePtr c10 with inl e => inl (sql.scanError names 9 e) | inr sentAt =>
      match sql.scan_string c11 with inl e => inl (sql.scanError names 10 e) | inr comment =>
        inr {| ID := id; TxnNo := txnNo; RuleID := ruleID; Time := time;
               Subject := subject; Content := content; Status := status;
               Comment := comment;
               ToAddresses := parseAddresses rawToAddress;
               BCCAddresses := parseAddresses rowBccAddress;
               SentAt := sentAt |}
      end end end end end end end end end end end
  | _ => inl (sql.scanCountError (length cols) 11)
  end.

(** Lines 165-201: the loop [for rows.Next()]. *)
Fixpoint scanRows (names : list string) (rows : list (list sql.value)) (ms : list Message)
  : result (list Message) :=
  match rows with
  | [] => inr ms
  | cols :: rest =>
      match scanMessage names cols with
      | inl err => inl (Errorf "failed to scan tb_getEmailWiseSend: " err)
      | inr m => scanRows names rest (ms ++ [m])
      end
  end.

(** Lines 127-207. *)
Definition listMailMessages : Prog (result (list Message)) :=
  err <- call (ExecContext "EXEC dbo.pd_wiseSendEmail" []) ;;
  match err with
  | Some err =>
      Ret (inl (Errorf "failed to execute stored procedure pd_wiseSendEmail: " err))
  | None =>
      today <- call Today ;;
      rows <- call (QueryContext (pendingQuery today)) ;;
      match rows with
      | inl err => Ret (inl (Errorf "failed to query tb_getEmailWiseSend: " err))
      | inr rows =>
          match scanRows (sql.columns rows) (sql.data rows) [] with
          | inl err => Ret (inl err)
          | inr ms =>
              match sql.iterErr rows with
              | Some err => Ret (inl (Errorf "failed to iterate tb_getEmailWiseSend: " err))
              | None => Ret (inr ms)
              end
          end
      end
  end.

(** Lines 32-46.  (The logger calls write to the log only and are left out
    here and in [Send].) *)
Definition ListMessages : Prog (result (list Message)) :=
  messages <- listMailMessages ;;
  match messages with
  | inl err => Ret (inl err)
  | inr messages => Ret (inr messages)
  end.

Definition updateStatement : string := "EXEC dbo.pd_updategetemailwisesend @txnno".

(** Lines 97-103: the loop that marks each message as sent. *)
Fixpoint commitMessages (rawsMessages : list Message) : Prog (option error) :=
  match rawsMessages with
  | [] => Ret None
  | msg :: rest =>
      err <- call (ExecContext updateStatement [("txnno", TxnNo msg)]) ;;
      match err with
      | Some err => Ret (Some err)
      | None => commitMessages rest
      end
  end.

Section Sender.

Variable Getenv : string -> string.

(** Lines 85-90. *)
Definition dialer : mail.Dialer :=
  mail.NewDialer (Getenv "SMTP_HOST") 587 (Getenv "SMTP_USERNAME") (Getenv "SMTP_PASSWORD").

(** Lines 66-106: what [Send] does with a fetched batch. *)
Definition dispatch (rawsMessages : list Message) : Prog (option error) :=
  if decide (length rawsMessages = 0) then Ret None
  else
    let messages := buildMessages Getenv rawsMessages [] in
    err <- call (DialAndSend dialer messages) ;;
    match err with
    | Some err => Ret (Some err)
    | None =>
        err <- commitMessages rawsMessages ;;
        match err with
        | Some err => Ret (Some err)
        | None => Ret None
        end
    end.

(** Lines 55-106: the body of [Send], run while [s.mu] is held. *)
Definition sendLocked : Prog (option error) :=
  rawsMessages <- listMailMessages ;;
  match rawsMessages with
  | inl err => Ret (Some err)
  | inr rawsMessages => dispatch rawsMessages
  end.

(** Lines 51-107.  [defer s.mu.Unlock()] runs when the body returns,
    whatever it returns. *)
Definition Send : Prog (option error) :=
  trigger Lock ;;
  err <- sendLocked ;;
  trigger Unlock ;;
  Ret err.

End Sender.

(* ===================================================================== *)
(** ** Running a program *)
(* ===================================================================== *)

(** The outside world answers each call and moves to a new state. *)
Definition Handler (W : Type) : Type := forall X : Type, Ext X -> W -> X * W.

(** What an observer sees of an event: the event and what it returned. *)
Inductive Obs : Type :=
| ObsLock
| ObsUnlock
| ObsToday (out : string)
| ObsExec (query : string) (args : list (string * string)) (out : option error)
| ObsQuery (q : sq.Statement) (out : result sql.Rows)
| ObsDialAndSend (d : mail.Dialer) (m : list mail.Message) (out : option error).

Definition observe {X : Type} (e : Ext X) : X -> Obs :=
  match e in Ext X return X -> Obs with
  | Today => ObsToday
  | ExecContext query args => ObsExec query args
  | QueryContext q => ObsQuery q
  | DialAndSend d m => ObsDialAndSend d m
  end.

(** One event.  [locked] is the state of the [sync.Mutex]: [Lock] on a
    locked mutex does not return ([None]: the goroutine cannot move), and
    [Unlock] of an unlocked mutex is a fatal error ([None]). *)
Definition step {W X : Type} (h : Handler W) (e : Event X) (locked : bool) (w : W)
  : option (X * bool * W * Obs) :=
  match e in Event X return option (X * bool * W * Obs) with
  | Lock => if locked then None else Some (tt, true, w, ObsLock)
  | Unlock => if locked then Some (tt, false, w, ObsUnlock) else None
  | Call e => let (x, w') := h _ e w in Some (x, locked, w', observe e x)
  end.

Record Outcome (A W : Type) : Type := mkOutcome {
  returned : A;
  mutex : bool;
  world : W;
  trace : list Obs
}.

Arguments mkOutcome {A W}.
Arguments returned {A W}.
Arguments mutex {A W}.
Arguments world {A W}.
Arguments trace {A W}.

(** A goroutine running alone, to completion. *)
Fixpoint run {W A : Type} (h : Handler W) (p : Prog A) (locked : bool) (w : W)
  : option (Outcome A W) :=
  match p with
  | Ret a => Some (mkOutcome a locked w [])
  | Vis e k =>
      match step h e locked w with
      | None => None
      | Some (x, locked', w', o) =>
          match run h (k x) locked' w' with
          | None => None
          | Some out => Some (mkOutcome (returned out) (mutex out) (world out) (o :: trace out))
          end
      end
  end.

(** Goroutines running [Send] concurrently: any goroutine that can perform
    its next event may do so.  [history] lists the events performed so far,
    each with the index of its goroutine. *)
Record Config (W : Type) : Type := mkConfig {
  locked : bool;
  shared : W;
  pool : list (Prog (option error));
  history : list (nat * Obs)
}.

Arguments mkConfig {W}.
Arguments locked {W}.
Arguments shared {W}.
Arguments pool {W}.
Arguments history {W}.

(** One event of one goroutine: its next event is performed, if the mutex
    lets it, and the goroutine goes on with what the event returned. *)
Definition pstep {W A : Type} (h : Handler W) (p : Prog A) (locked : bool) (w : W)
  : option (Prog A * bool * W * Obs) :=
  match p with
  | Ret _ => None
  | Vis e k =>
      match step h e locked w with
      | None => None
      | Some (x, locked', w', o) => Some (k x, locked', w', o)
      end
  end.

Inductive cstep {W : Type} (h : Handler W) (i : nat) : Config W -> Config W -> Prop :=
| cstep_event (c : Config W) (p p' : Prog (option error))
      (locked' : bool) (w' : W) (o : Obs) :
    pool c !! i = Some p ->
    pstep h p (locked c) (shared c) = Some (p', locked', w', o) ->
    cstep h i c (mkConfig locked' w' (<[i := p']> (pool c)) (history c ++ [(i, o)])).

Inductive reachable {W : Type} (h : Handler W) (c0 : Config W) : Config W -> Prop :=
| reachable_start : reachable h c0 c0
| reachable_step (c c' : Config W) (i : nat) :
    reachable h c0 c -> cstep h i c c' -> reachable h c0 c'.

(** [n] goroutines about to call [Send], the mutex unlocked. *)
Definition initial {W : Type} (Getenv : string -> string) (n : nat) (w : W) : Config W :=
  mkConfig false w (replicate n (Send Getenv)) [].

(** Reading a history from its start: who holds the mutex after each event.
    [None] is returned when an event breaks the discipline: a [Lock] while
    the mutex is held, or any other event by a goroutine that does not hold
    it. *)
Definition ownerStep (st : option (option nat)) (ev : nat * Obs) : option (option nat) :=
  match st with
  | None => None
  | Some owner =>
      match snd ev, owner with
      | ObsLock, None => Some (Some (fst ev))
      | ObsLock, Some _ => None
      | ObsUnlock, Some j => if decide (fst ev = j) then Some None else None
      | _, Some j => if decide (fst ev = j) then Some owner else None
      | _, None => None
      end
  end.

Definition ownerAfter (hist : list (nat * Obs)) : option (option nat) :=
  foldl ownerStep (Some None) hist.

(** A history is serialized when it is a sequence of cycles, each made of
    the events of ONE goroutine from its [Lock] to its [Unlock] (the last
    cycle may be unfinished). *)
Definition serialized (hist : list (nat * Obs)) : Prop :=
  is_Some (ownerAfter hist).

(* ===================================================================== *)
(** ** A database server and a mail relay *)
(* ===================================================================== *)

Record World : Type := mkWorld {
  table : list storage.Row;          (* dbo.tb_getEmailWiseSend *)
  clock : string;                    (* the current day, as 2006-01-02 *)
  outbox : list (list mail.Message)  (* the batches the relay accepted *)
}.

Section Server.

(** The two stored procedures (their text is not part of the repository)
    and the relay's verdict on a batch. *)
Variable pd_wiseSendEmail : list storage.Row -> result (list storage.Row).
Variable pd_updategetemailwisesend : string -> list storage.Row -> result (list storage.Row).
Variable relay : mail.Dialer -> list mail.Message -> option error.

Definition exec (query : string) (args : list (string * string)) (w : World)
  : option error * World :=
  if decide (query = "EXEC dbo.pd_wiseSendEmail" /\ args = []) then
    match pd_wiseSendEmail (table w) with
    | inl err => (Some err, w)
    | inr tb => (None, mkWorld tb (clock w) (outbox w))
    end
  else
    match args with
    | [(name, v)] =>
        if decide (query = updateStatement /\ name = "txnno") then
          match pd_updategetemailwisesend v (table w) with
          | inl err => (Some err, w)
          | inr tb => (None, mkWorld tb (clock w) (outbox w))
          end
        else (Some (errorString "Could not find stored procedure."), w)
    | _ => (Some (errorString "Could not find stored procedure."), w)
    end.

Definition server : Handler World :=
  fun X e =>
    match e in Ext X return World -> X * World with
    | Today => fun w => (clock w, w)
    | ExecContext query args => exec query args
    | QueryContext q => fun w =>
        match storage.select q (table w) with
        | inl err => (inl err, w)
        | inr rows => (inr (sql.mkRows (storage.columnNames q) rows None), w)
        end
    | DialAndSend d m => fun w =>
        match relay d m with
        | Some err => (Some err, w)
        | None => (None, mkWorld (table w) (clock w) (outbox w ++ [m]))
        end
    end.

End Server.

(* ===================================================================== *)
(** ** The address parser, in the words of the specification *)
(* ===================================================================== *)

(** The fields of [s] between the occurrences of the delimiter [d], the
    empty ones included: [n] delimiters give [n + 1] fields. *)
Fixpoint splitOn (d : ascii) (s : string) : list string :=
  match s with
  | EmptyString => [EmptyString]
  | String c rest =>
      if decide (c = d) then EmptyString :: splitOn d rest
      else
        match splitOn d rest with
        | w :: ws => String c w :: ws
        | [] => [String c EmptyString]
        end
  end.

(** The fields put back together, [d] between them. *)
Fixpoint joinWith (d : ascii) (ws : list string) : string :=
  match ws with
  | [] => EmptyString
  | [w] => w
  | w :: rest => w +:+ String d (joinWith d rest)
  end.

(** "Splitting on the ';' delimiter, discarding empty fields"; an absent
    input gives the empty sequence. *)
Definition parseAddresses_spec (raw : option string) : list string :=
  match raw with
  | None => []
  | Some s => filter (fun w => w <> EmptyString) (splitOn ";" s)
  end.

(** The field being read, put in front of the first field still to come. *)
Definition attach (pre : string) (ws : list string) : list string :=
  match ws with
  | w :: rest => (pre +:+ w) :: rest
  | [] => [pre]
  end.

(** The characters of a string. *)
Fixpoint chars (s : string) : list ascii :=
  match s with
  | EmptyString => []
  | String c rest => c :: chars rest
  end.

(* ===================================================================== *)
(** ** Vocabulary for the statements *)
(* ===================================================================== *)

(** A program that never touches the mutex. *)
Inductive LockFree {A : Type} : Prog A -> Prop :=
| LockFree_Ret (a : A) : LockFree (Ret a)
| LockFree_Call (X : Type) (e : Ext X) (k : X -> Prog A) :
    (forall x, LockFree (k x)) -> LockFree (Vis (Call e) k).

(** What is left of [Send] once the mutex is taken: calls only, then one
    [Unlock], then the return. *)
Inductive Critical {A : Type} : Prog A -> Prop :=
| Critical_Unlock (k : unit -> Prog A) :
    (forall x, exists a, k x = Ret a) -> Critical (Vis Unlock k)
| Critical_Call (X : Type) (e : Ext X) (k : X -> Prog A) :
    (forall x, Critical (k x)) -> Critical (Vis (Call e) k).

(** The rows that the WHERE clause of the statement keeps. *)
Definition selected (today : string) (r : storage.Row) : Prop :=
  storage.rectype r = Some "ADD" /\ storage.txtdate r = Some today.

Global Instance selected_dec (today : string) (r : storage.Row) : Decision (selected today r).
Proof. unfold selected. apply _. Defined.

(** The select list of the statement, without its TOP. *)
Definition pendingColumns : list string :=
  [ "TWID"; "Txnno"; "Ruleid"; "txtdate"; "toaddress"; "bccaddress";
    "subjects"; "contents"; "rectype"; "senddatetime"; "comments" ].

(** The values of a row under that select list. *)
Definition rowValues (r : storage.Row) : list sql.value :=
  [ sql.VInt (storage.TWID r); storage.str (storage.Txnno r);
    storage.str (storage.Ruleid r); storage.str (storage.txtdate r);
    storage.str (storage.toaddress r); storage.str (storage.bccaddress r);
    storage.str (storage.subjects r); storage.str (storage.contents r);
    storage.str (storage.rectype r); storage.tim (storage.senddatetime r);
    storage.str (storage.comments r) ].

(** A message that was read from a row. *)
Definition readFrom (r : storage.Row) (m : Message) : Prop :=
  ID m = storage.TWID r
  /\ storage.Txnno r = Some (TxnNo m)
  /\ storage.Ruleid r = Some (RuleID m)
  /\ storage.txtdate r = Some (Time m)
  /\ storage.subjects r = Some (Subject m)
  /\ storage.contents r = Some (Content m)
  /\ storage.rectype r = Some (Status m)
  /\ storage.comments r = Some (Comment m)
  /\ SentAt m = storage.senddatetime r
  /\ ToAddresses m = parseAddresses_spec (storage.toaddress r)
  /\ BCCAddresses m = parseAddresses_spec (storage.bccaddress r).

(** The status-commit call for one message, with what it returned. *)
Definition commitCall (msg : Message) (out : option error) : Obs :=
  ObsExec updateStatement [("txnno", TxnNo msg)] out.

(** The world after the status-commit call for one message. *)
Definition afterCommit {W : Type} (h : Handler W) (w : W) (msg : Message) : W :=
  snd (h _ (ExecContext updateStatement [("txnno", TxnNo msg)]) w).

Definition isTransportCall (o : Obs) : bool :=
  match o with
  | ObsDialAndSend _ _ _ => true
  | _ => false
  end.

Definition isCommitCall (o : Obs) : bool :=
  match o with
  | ObsExec query _ _ => bool_decide (query = updateStatement)
  | _ => false
  end.

(** The batches handed to the transport, in the order of the calls. *)
Definition transportBatches (t : list Obs) : list (list mail.Message) :=
  flat_map (fun o => match o with
                     | ObsDialAndSend _ m _ => [m]
                     | _ => []
                     end) t.

(** The number of observed events of one kind. *)
Definition calls (kind : Obs -> bool) (t : list Obs) : nat :=
  length (List.filter kind t).

(* ===================================================================== *)
(** ** Sample data: a table, stored procedures, relays *)
(* ===================================================================== *)

Module sample.

Definition day : string := "2026-10-30".

Definition rowA : storage.Row :=
  storage.mkRow 7 (Some "TX-7") (Some "R1") (Some day) (Some "a@x;b@x;;c@x")
    (Some "boss@x") (Some "Hello") (Some "<p>Hi</p>") (Some "ADD") None (Some "first").

Definition rowB : storage.Row :=
  storage.mkRow 3 (Some "TX-3") (Some "R2") (Some day) (Some "d@x")
    None (Some "Report") (Some "<p>Done</p>") (Some "ADD") None (Some "second").

(** A row of an earlier day. *)
Definition rowOld : storage.Row :=
  storage.mkRow 1 (Some "TX-1") (Some "R1") (Some "2026-10-29") (Some "e@x")
    None (Some "Old") (Some "<p>Old</p>") (Some "ADD") None (Some "old").

(** A row of the day, flagged ADD, whose recipient column is NULL. *)
Definition rowNull : storage.Row :=
  storage.mkRow 5 (Some "TX-5") (Some "R1") (Some day) None
    (Some "boss@x") (Some "Nobody") (Some "<p>Nobody</p>") (Some "ADD") None (Some "null").

(** A row of the day whose recipient column holds delimiters only. *)
Definition rowSemis : storage.Row :=
  storage.mkRow 9 (Some "TX-9") (Some "R1") (Some day) (Some ";")
    None (Some "Blank") (Some "<p>Blank</p>") (Some "ADD") None (Some "semis").

Definition Getenv (key : string) : string :=
  if decide (key = "MAIL_FROM") then "noreply@example.org"
  else if decide (key = "SMTP_HOST") then "smtp.example.org"
  else if decide (key = "SMTP_USERNAME") then "mailer"
  else if decide (key = "SMTP_PASSWORD") then "secret"
  else EmptyString.

(** A generation procedure that finds nothing new. *)
Definition keepTable (tb : list storage.Row) : result (list storage.Row) := inr tb.


(** An acknowledgment procedure: the rows of the transaction become SEND. *)
Definition markSent (txnno : string) (tb : list storage.Row) : result (list storage.Row) :=
  inr (map (fun r =>
              if decide (storage.Txnno r = Some txnno) then
                storage.mkRow (storage.TWID r) (storage.Txnno r) (storage.Ruleid r)
                  (storage.txtdate r) (storage.toaddress r) (storage.bccaddress r)
                  (storage.subjects r) (storage.contents r) (Some "SEND")
                  (storage.senddatetime r) (storage.comments r)
              else r) tb).

(** An acknowledgment procedure that fails for transaction TX-7. *)
Definition markSentBut7 (txnno : string) (tb : list storage.Row) : result (list storage.Row) :=
  if decide (txnno = "TX-7") then inl (errorString "mssql: deadlock victim")
  else markSent txnno tb.

Definition acceptAll (d : mail.Dialer) (m : list mail.Message) : option error := None.

Definition refuseAll (d : mail.Dialer) (m : list mail.Message) : option error :=
  Some (errorString "dial tcp: connection refused").

(** Servers: everything works; the relay is down; one acknowledgment fails;
    the generation procedure adds a row. *)
Definition healthy : Handler World := server keepTable markSent acceptAll.
Definition relayDown : Handler World := server keepTable markSent refuseAll.
Definition commitFails : Handler World := server keepTable markSentBut7 acceptAll.

Definition worldTwo : World := mkWorld [rowA; rowB; rowOld] day [].
Definition worldNone : World := mkWorld [rowOld] day [].
Definition worldNull : World := mkWorld [rowA; rowNull] day [].
Definition worldSemis : World := mkWorld [rowSemis] day [].

End sample.

(* ===================================================================== *)
(** ** package errors *)
(* ===================================================================== *)

(** [errors.Unwrap]: the error that [fmt.Errorf] with %w wrapped. *)
Definition Unwrap (e : error) : option error :=
  match e with
  | errorString _ => None
  | wrapError _ err => Some err
  end.

(* ===================================================================== *)
(** ** More vocabulary: kinds of events, rows that can be scanned *)
(* ===================================================================== *)

Definition isMutexEvent (o : Obs) : bool :=
  match o with
  | ObsLock | ObsUnlock => true
  | _ => false
  end.

Definition isLock (o : Obs) : bool :=
  match o with
  | ObsLock => true
  | _ => false
  end.

Definition isUnlock (o : Obs) : bool :=
  match o with
  | ObsUnlock => true
  | _ => false
  end.

(** The events of goroutine [i] in a history, in their order. *)
Definition eventsOf (i : nat) (hist : list (nat * Obs)) : list Obs :=
  map snd (List.filter (fun ev => Nat.eqb (fst ev) i) hist).

(** Where goroutine [i], which called [Send], stands: [p] is what is left
    of its call, [events] what it has done, [owner] who holds the mutex.
    Either it has done nothing and the whole of [Send] is still to run; or
    it holds the mutex, having taken it once and made calls only since; or
    it has returned, having taken the mutex once, made calls only, and
    released it once. *)
Definition oneCycle (Getenv : string -> string) (owner : option nat) (i : nat)
    (p : Prog (option error)) (events : list Obs) : Prop :=
  (p = Send Getenv /\ events = [] /\ owner <> Some i)
  \/ (Critical p /\ owner = Some i
      /\ exists body, events = ObsLock :: body /\ calls isMutexEvent body = 0)
  \/ ((exists r, p = Ret r) /\ owner <> Some i
      /\ exists body, events = ObsLock :: body ++ [ObsUnlock]
           /\ calls isMutexEvent body = 0).

(** What holds of every configuration that goroutines calling [Send] can
    reach: the history is serialized; the mutex is locked exactly when a
    goroutine owns it, and the owner is one of the goroutines; every
    goroutine is at one of the three stages of its single cycle. *)
Definition invariant {W : Type} (Getenv : string -> string) (c : Config W) : Prop :=
  exists owner,
    ownerAfter (history c) = Some owner
    /\ locked c = match owner with Some _ => true | None => false end
    /\ (forall j, owner = Some j -> is_Some (pool c !! j))
    /\ forall i p, pool c !! i = Some p ->
         oneCycle Getenv owner i p (eventsOf i (history c)).

(** The batch of a fetch, empty when the fetch failed. *)
Definition batchOf (r : result (list Message)) : list Message :=
  match r with
  | inl _ => []
  | inr ms => ms
  end.

(** The days that the clock returned, in the order of the calls. *)
Definition daysRead (t : list Obs) : list string :=
  flat_map (fun o => match o with
                     | ObsToday today => [today]
                     | _ => []
                     end) t.

(** The statements that [Send] may send to the database: the generation
    procedure without arguments; the acknowledgment procedure with the
    transaction number of a message of the batch as its only argument; the
    SELECT of [pendingQuery] for a day that the clock returned.  (The other
    events are not database statements.) *)
Definition knownStatement (days : list string) (batch : list Message) (o : Obs) : Prop :=
  match o with
  | ObsExec query args _ =>
      (query = "EXEC dbo.pd_wiseSendEmail" /\ args = [])
      \/ (query = updateStatement
          /\ exists m, m ∈ batch /\ args = [("txnno", TxnNo m)])
  | ObsQuery q _ => exists today, today ∈ days /\ q = pendingQuery today
  | ObsLock | ObsUnlock | ObsToday _ | ObsDialAndSend _ _ _ => True
  end.

(** A row whose columns read into [string] destinations are not NULL. *)
Definition scannable (r : storage.Row) : Prop :=
  storage.Txnno r <> None /\ storage.Ruleid r <> None /\ storage.txtdate r <> None
  /\ storage.subjects r <> None /\ storage.contents r <> None
  /\ storage.rectype r <> None /\ storage.comments r <> None.

(* ===================================================================== *)
(** ** main.go: the scheduled job, getEnv, the HTTP error handler *)
(* ===================================================================== *)

Section Cron.

Variable Getenv : string -> string.

(** Lines 300-303 of main.go: the job handed to the scheduler.  It calls
    [Send] and drops the error. *)
Definition cronJob : Prog unit :=
  _ <- Send Getenv ;;
  Ret tt.

(** [n] runs of the job, one after the other. *)
Fixpoint ticks (n : nat) : Prog unit :=
  match n with
  | O => Ret tt
  | S k => cronJob ;; ticks k
  end.

End Cron.

Module os.

(** The environment of the process: the variables that are set. *)
Definition Environ : Type := gmap string string.

(** [os.LookupEnv]: the value and whether the variable is set. *)
Definition LookupEnv (env : Environ) (key : string) : string * bool :=
  match env !! key with
  | Some value => (value, true)
  | None => (EmptyString, false)
  end.

(** [os.Getenv]: the value, empty when the variable is not set. *)
Definition Getenv (env : Environ) (key : string) : string :=
  fst (LookupEnv env key).

End os.

(** Lines 245-250 of main.go. *)
Definition getEnv (env : os.Environ) (key fallback : string) : string :=
  let (value, ok) := os.LookupEnv env key in
  if ok then value else fallback.

(** Line 325 of main.go: [fmt.Sprintf(":%s", getEnv("PORT", "8089"))]. *)
Definition listenAddress (env : os.Environ) : string :=
  ":" +:+ getEnv env "PORT" "8089".

(** gRPC status codes ([google.golang.org/grpc/codes]); [Other] stands for
    a number that names no code. *)
Module codes.

Inductive Code : Type :=
| OK | Canceled | Unknown | InvalidArgument | DeadlineExceeded | NotFound
| AlreadyExists | PermissionDenied | ResourceExhausted | FailedPrecondition
| Aborted | OutOfRange | Unimplemented | Internal | Unavailable | DataLoss
| Unauthenticated
| Other (n : Z).

End codes.

(** [runtime.HTTPStatusFromCode] of grpc-gateway. *)
Definition HTTPStatusFromCode (code : codes.Code) : Z :=
  match code with
  | codes.OK => 200
  | codes.Canceled => 499
  | codes.Unknown => 500
  | codes.InvalidArgument => 400
  | codes.DeadlineExceeded => 504
  | codes.NotFound => 404
  | codes.AlreadyExists => 409
  | codes.PermissionDenied => 403
  | codes.Unauthenticated => 401
  | codes.ResourceExhausted => 429
  | codes.FailedPrecondition => 400
  | codes.Aborted => 409
  | codes.OutOfRange => 400
  | codes.Unimplemented => 501
  | codes.Internal => 500
  | codes.Unavailable => 503
  | codes.DataLoss => 500
  | codes.Other _ => 500
  end.

(** [*status.Status]: code, message and details (kept opaque). *)
Module status.

Record Status : Type := New' {
  Code : codes.Code;
  Message : string;
  Details : list string
}.

(** [status.New(c, msg)]: a status without details. *)
Definition New (c : codes.Code) (msg : string) : Status := New' c msg [].

End status.

(** The message [hspb.Error] with its [hspb.Status] inside, as
    [httpStatusPbFromRPC] fills it (lines 441-448 of main.go). *)
Record hspbError : Type := mkHspbError {
  pbCode : Z;
  pbMessage : string;
  pbStatus : codes.Code;
  pbDetails : list string
}.

(** The errors that reach the handler: one for which [status.FromError]
    answers [ok] (with the status it yields), an [*echo.HTTPError] without
    a gRPC status, any other error. *)
Inductive handlerError : Type :=
| GRPCStatusError (s : status.Status)
| EchoHTTPError (Code : Z) (Message : string)
| PlainError (e : error).

(** What the handler writes: [c.JSONBlob(code, protojson(body))] or
    [c.JSON(code, echo.Map{code, status, message})]. *)
Inductive Response : Type :=
| JSONBlob (httpStatus : Z) (body : hspbError)
| JSON (httpStatus : Z) (code : Z) (status : string) (message : string).

(** Lines 440-449 of main.go. *)
Definition httpStatusPbFromRPC (s : status.Status) : hspbError :=
  {| pbCode := HTTPStatusFromCode (status.Code s);
     pbMessage := status.Message s;
     pbStatus := status.Code s;
     pbDetails := status.Details s |}.

(** Lines 406-438 of main.go. *)
Definition httpErr (err : handlerError) : Response :=
  match err with
  | GRPCStatusError s =>
      let he := httpStatusPbFromRPC s in
      JSONBlob (pbCode he) he
  | EchoHTTPError code _ =>
      let s :=
        if decide (code = 404%Z) then status.New codes.NotFound "Not found!"
        else if decide (code = 429%Z) then
          status.New codes.ResourceExhausted "Too many requests."
        else status.New codes.Unknown "Unknown error!" in
      let hbp := httpStatusPbFromRPC s in
      JSONBlob (pbCode hbp) hbp
  | PlainError _ =>
      JSON 500 500 "INTERNAL_ERROR" "An internal error occurred"
  end.

(** Lines 310-321 of main.go: the handler of GET /v1/healthz, followed by
    the error handler when it returns an error.  [ping] is what
    [db.PingContext] returned. *)
Definition healthz (ping : option error) : Response :=
  match ping with
  | Some err => httpErr (PlainError err)
  | None => JSON 200 200 "OK" "Available!"
  end.

Definition httpStatusOf (r : Response) : Z :=
  match r with
  | JSONBlob c _ => c
  | JSON c _ _ _ => c
  end.

(* ===================================================================== *)
(** ** More sample data *)
(* ===================================================================== *)

Module cases.

(** A row of the day, flagged ADD, whose transaction number is NULL. *)
Definition rowNoTxn : storage.Row :=
  storage.mkRow 4 None (Some "R1") (Some sample.day) (Some "f@x")
    None (Some "Broken") (Some "<p>Broken</p>") (Some "ADD") None (Some "no txn").

(** A generation procedure that fails. *)
Definition genFails (tb : list storage.Row) : result (list storage.Row) :=
  inl (errorString "mssql: login failed").

Definition genDown : Handler World := server genFails sample.markSent sample.acceptAll.

Definition worldPoisoned : World := mkWorld [sample.rowA; rowNoTxn; sample.rowB] sample.day [].

Definition environ : os.Environ := <["PORT" := EmptyString]> (<["MAIL_FROM" := "noreply@example.org"]> ∅).

End cases.

(* ===================================================================== *)
(** * Properties *)
(* ===================================================================== *)

(** ** Strings and fields *)

Example FieldsFunc_examples :
  strings.FieldsFunc "a@x;b@x;;c@x" isSemicolon = ["a@x"; "b@x"; "c@x"]
  /\ strings.FieldsFunc ";;a@x;" isSemicolon = ["a@x"]
  /\ strings.FieldsFunc EmptyString isSemicolon = []
  /\ strings.FieldsFunc ";;" isSemicolon = [].
Proof. repeat split. Qed.

Example envelopeOpen_chars :
  String.length envelopeOpen = 47
  /\ String.get 18 envelopeOpen = Some (ascii_of_nat 34)
  /\ String.get 45 envelopeOpen = Some (ascii_of_nat 34).
Proof. repeat split. Qed.

Lemma append_nil_l (t : string) : EmptyString +:+ t = t.
Proof. reflexivity. Qed.

Lemma append_cons_l (c : ascii) (s t : string) : String c s +:+ t = String c (s +:+ t).
Proof. reflexivity. Qed.

Lemma append_empty_r (s : string) : s +:+ EmptyString = s.
Proof.
  induction s as [|c s IH]; [reflexivity |].
  now rewrite append_cons_l, IH.
Qed.

Lemma append_cons_assoc (p : string) (c : ascii) (w : string) :
  (p +:+ String c EmptyString) +:+ w = p +:+ String c w.
Proof.
  induction p as [|a p IH]; [reflexivity |].
  now rewrite !append_cons_l, IH.
Qed.

Lemma append_snoc_nonempty (p : string) (c : ascii) :
  p +:+ String c EmptyString <> EmptyString.
Proof. destruct p; discriminate. Qed.

Lemma splitOn_nonnil (d : ascii) (s : string) : splitOn d s <> [].
Proof.
  induction s as [|c s IH]; simpl; [discriminate |].
  destruct (decide (c = d)); [discriminate |].
  destruct (splitOn d s); discriminate.
Qed.

(** [splitOn] is the inverse of joining: no character is lost or moved. *)
Lemma joinWith_splitOn (d : ascii) (s : string) : joinWith d (splitOn d s) = s.
Proof.
  induction s as [|c s IH]; simpl; [reflexivity |].
  destruct (decide (c = d)) as [->|Hne].
  - pose proof (splitOn_nonnil d s) as Hnn.
    destruct (splitOn d s) as [|w ws]; [congruence |].
    simpl in *. now rewrite IH.
  - pose proof (splitOn_nonnil d s) as Hnn.
    destruct (splitOn d s) as [|w ws]; [congruence |].
    destruct ws as [|w' ws]; simpl in *; now rewrite <- IH.
Qed.

(** No field of [splitOn] holds the delimiter. *)
Lemma splitOn_no_delimiter (d : ascii) (s : string) :
  Forall (fun w => d ∉ chars w) (splitOn d s).
Proof.
  induction s as [|c s IH]; simpl.
  - constructor; [|constructor]. simpl. apply not_elem_of_nil.
  - destruct (decide (c = d)) as [->|Hne].
    + constructor; [simpl; apply not_elem_of_nil | exact IH].
    + destruct (splitOn d s) as [|w ws].
      * constructor; [|constructor]. simpl.
        intros Hin. apply list_elem_of_singleton in Hin. congruence.
      * inversion IH as [|? ? Hw Hws]; subst.
        constructor; [|exact Hws]. simpl.
        intros Hin. apply elem_of_cons in Hin as [Heq|Hin]; [congruence | tauto].
Qed.

Lemma attach_empty (ws : list string) : ws <> [] -> attach EmptyString ws = ws.
Proof. destruct ws; [congruence | reflexivity]. Qed.

Lemma fieldsFrom_splitOn (s : string) :
  forall cur : option string,
    cur <> Some EmptyString ->
    strings.fieldsFrom isSemicolon s cur
    = filter (fun w => w <> EmptyString) (attach (default EmptyString cur) (splitOn ";" s)).
Proof.
  induction s as [|c s IH]; intros cur Hcur.
  - destruct cur as [w|]; simpl.
    + rewrite append_empty_r. rewrite filter_cons_True by congruence. reflexivity.
    + reflexivity.
  - simpl.
    assert (Hc : isSemicolon c = bool_decide (c = ";"%char)) by reflexivity.
    rewrite Hc. clear Hc.
    pose proof (splitOn_nonnil ";" s) as Hnn.
    destruct (ascii_dec c ";"%char) as [->|Hne].
    + rewrite bool_decide_eq_true_2, decide_True by reflexivity.
      rewrite (IH None) by discriminate. simpl.
      rewrite attach_empty by exact Hnn.
      destruct cur as [w|]; simpl.
      * rewrite append_empty_r, filter_cons_True by congruence. reflexivity.
      * rewrite filter_cons_False by (intros H; now apply H). reflexivity.
    + rewrite bool_decide_eq_false_2, decide_False by exact Hne.
      destruct cur as [w|]; simpl.
      * rewrite IH by (intros [= H]; now apply append_snoc_nonempty in H).
        simpl. destruct (splitOn ";" s) as [|w' ws]; [congruence |].
        simpl. now rewrite append_cons_assoc.
      * rewrite IH by discriminate.
        simpl. destruct (splitOn ";" s) as [|w' ws]; [congruence | reflexivity].
Qed.

Lemma FieldsFunc_splitOn (s : string) :
  strings.FieldsFunc s isSemicolon
  = filter (fun w => w <> EmptyString) (splitOn ";" s).
Proof.
  unfold strings.FieldsFunc. rewrite fieldsFrom_splitOn by discriminate.
  simpl. now rewrite attach_empty by apply splitOn_nonnil.
Qed.

(** C5. For every string [s], the address parser returns the fields of [s]
    between ';' delimiters, in order, without the empty ones (where the
    fields are those whose joining by ';' gives back [s] and which hold no
    ';'); no element of the result is empty; an absent (NULL) input gives
    the empty sequence; and "a@x;b@x;;c@x" gives ["a@x"; "b@x"; "c@x"]. *)
Theorem C5_parseAddresses_splits_on_semicolon :
  (forall s : string,
      parseAddresses (mkNullString s true) = parseAddresses_spec (Some s)
      /\ joinWith ";" (splitOn ";" s) = s
      /\ Forall (fun w => ";"%char ∉ chars w) (splitOn ";" s)
      /\ Forall (fun w => w <> EmptyString) (parseAddresses (mkNullString s true)))
  /\ (forall s : string,
      parseAddresses (mkNullString s false) = parseAddresses_spec None
      /\ parseAddresses (mkNullString s false) = [])
  /\ parseAddresses (mkNullString "a@x;b@x;;c@x" true) = ["a@x"; "b@x"; "c@x"].
Proof.
  split; [|split].
  - intros s. unfold parseAddresses, parseAddresses_spec. simpl.
    rewrite FieldsFunc_splitOn.
    split; [reflexivity |].
    split; [apply joinWith_splitOn |].
    split; [apply splitOn_no_delimiter |].
    apply Forall_forall. intros w Hw.
    apply list_elem_of_filter in Hw. tauto.
  - intros s. split; reflexivity.
  - reflexivity.
Qed.

(** ** Running programs *)

Section Running.

Context {W : Type} (h : Handler W).

Lemma run_bind {A B : Type} (p : Prog A) (f : A -> Prog B) :
  forall (l : bool) (w : W),
    run h (bind p f) l w
    = match run h p l w with
      | None => None
      | Some o =>
          match run h (f (returned o)) (mutex o) (world o) with
          | None => None
          | Some o' =>
              Some (mkOutcome (returned o') (mutex o') (world o') (trace o ++ trace o'))
          end
      end.
Proof.
  induction p as [a | X e k IH]; intros l w; simpl.
  - destruct (run h (f a) l w) as [[r m w' t]|]; reflexivity.
  - destruct (step h e l w) as [[[[x l'] w'] o]|]; [|reflexivity].
    rewrite IH.
    destruct (run h (k x) l' w') as [[r m w'' t]|]; [|reflexivity]. simpl.
    destruct (run h (f r) m w'') as [[r' m' w3 t']|]; reflexivity.
Qed.

(** A program that leaves the mutex alone always runs to completion, and
    the state of the mutex does not matter to it. *)
Lemma run_LockFree {A : Type} (p : Prog A) :
  LockFree p ->
  forall (l : bool) (w : W),
    exists o, run h p l w = Some o /\ mutex o = l
      /\ forall l', run h p l' w = Some (mkOutcome (returned o) l' (world o) (trace o)).
Proof.
  induction 1 as [a | X e k Hk IH]; intros l w; simpl.
  - eexists; split; [reflexivity |]. split; reflexivity.
  - destruct (h X e w) as [x w'].
    destruct (IH x l w') as (o & Ho & Hm & Hl).
    rewrite Ho. eexists; split; [reflexivity |]. simpl.
    split; [exact Hm |].
    intros l'. now rewrite Hl.
Qed.

Lemma run_call {X : Type} (e : Ext X) (l : bool) (w : W) :
  run h (call e) l w
  = Some (mkOutcome (fst (h _ e w)) l (snd (h _ e w)) [observe e (fst (h _ e w))]).
Proof. simpl. destruct (h X e w); reflexivity. Qed.


Lemma LockFree_bind {A B : Type} (p : Prog A) (f : A -> Prog B) :
  LockFree p -> (forall a, LockFree (f a)) -> LockFree (bind p f).
Proof.
  induction 1 as [a | X e k Hk IH]; intros Hf; simpl.
  - apply Hf.
  - constructor. intros x. now apply IH.
Qed.

Lemma LockFree_call {X : Type} (e : Ext X) : LockFree (call e).
Proof. constructor. intros x. constructor. Qed.

Lemma LockFree_listMailMessages : LockFree listMailMessages.
Proof.
  unfold listMailMessages.
  apply LockFree_bind; [apply LockFree_call |].
  intros [err|]; [constructor |].
  apply LockFree_bind; [apply LockFree_call |]. intros today.
  apply LockFree_bind; [apply LockFree_call |].
  intros [err|rows]; [constructor |].
  destruct (scanRows (sql.columns rows) (sql.data rows) []); [constructor |].
  destruct (sql.iterErr rows); constructor.
Qed.

Lemma LockFree_commitMessages (rawsMessages : list Message) :
  LockFree (commitMessages rawsMessages).
Proof.
  induction rawsMessages as [|msg rest IH]; simpl; [constructor |].
  constructor. intros [err|]; [constructor | exact IH].
Qed.

Lemma observe_not_mutex {X : Type} (e : Ext X) (x : X) :
  isLock (observe e x) = false /\ isUnlock (observe e x) = false
  /\ isMutexEvent (observe e x) = false.
Proof. destruct e; repeat split. Qed.

Lemma LockFree_trace {A : Type} (p : Prog A) :
  LockFree p ->
  forall (l : bool) (w : W) (o : Outcome A W),
    run h p l w = Some o ->
    calls isLock (trace o) = 0 /\ calls isUnlock (trace o) = 0
    /\ calls isMutexEvent (trace o) = 0.
Proof.
  induction 1 as [a | X e k Hk IH]; intros l w o; simpl.
  - intros [= <-]. repeat split.
  - destruct (h X e w) as [x w'].
    destruct (run h (k x) l w') as [o'|] eqn:Hrun; [|discriminate].
    intros [= <-]. cbn [trace].
    destruct (IH x l w' o' Hrun) as (H1 & H2 & H3).
    destruct (observe_not_mutex e x) as (E1 & E2 & E3).
    unfold calls in *. cbn [List.filter]. rewrite E1, E2, E3. repeat split; assumption.
Qed.

End Running.

(** ** The dispatch cycle, for any database, clock and relay *)

Section Cycle.

Context {W : Type} (h : Handler W).
Variable Getenv : string -> string.

Lemma buildMessages_app (rawsMessages : list Message) :
  forall messages : list mail.Message,
    buildMessages Getenv rawsMessages messages
    = messages ++ map (buildMessage Getenv) rawsMessages.
Proof.
  induction rawsMessages as [|msg rest IH]; intros messages; simpl.
  - now rewrite app_nil_r.
  - rewrite IH. now rewrite <- app_assoc.
Qed.

Lemma buildMessages_map (rawsMessages : list Message) :
  buildMessages Getenv rawsMessages [] = map (buildMessage Getenv) rawsMessages.
Proof. apply buildMessages_app. Qed.

(** The commit loop: either every call succeeded, or the calls stop at the
    first one that failed. *)
Lemma run_commitMessages (rawsMessages : list Message) :
  forall (l : bool) (w : W),
    exists o,
      run h (commitMessages rawsMessages) l w = Some o /\ mutex o = l
      /\ ((returned o = None
           /\ trace o = map (fun m => commitCall m None) rawsMessages
           /\ world o = foldl (afterCommit h) w rawsMessages)
          \/ (exists pre m post err,
                rawsMessages = pre ++ m :: post
                /\ returned o = Some err
                /\ trace o = map (fun m => commitCall m None) pre ++ [commitCall m (Some err)]
                /\ world o = foldl (afterCommit h) w (pre ++ [m]))).
Proof.
  induction rawsMessages as [|msg rest IH]; intros l w; simpl.
  - eexists; split; [reflexivity |]. split; [reflexivity |].
    left. repeat split.
  - destruct (h _ (ExecContext updateStatement [("txnno", TxnNo msg)]) w)
      as [[err|] w'] eqn:E; simpl.
    + eexists; split; [reflexivity |]. split; [reflexivity |].
      right. exists [], msg, rest, err. simpl.
      repeat split. unfold afterCommit. now rewrite E.
    + destruct (IH l w') as (o & Ho & Hm & Hcases).
      rewrite Ho. eexists; split; [reflexivity |]. simpl.
      split; [exact Hm |].
      assert (Hw : afterCommit h w msg = w') by (unfold afterCommit; now rewrite E).
      destruct Hcases as [(Hr & Ht & Hwo) | (pre & m & post & err & Hsplit & Hr & Ht & Hwo)].
      * left. rewrite Hr, Ht, Hwo, Hw. repeat split.
      * right. exists (msg :: pre), m, post, err.
        rewrite Hsplit, Hr, Ht, Hwo. simpl. rewrite Hw. repeat split.
Qed.

Lemma LockFree_dispatch (rawsMessages : list Message) :
  LockFree (dispatch Getenv rawsMessages).
Proof.
  unfold dispatch. destruct (decide (length rawsMessages = 0)); [constructor |].
  apply LockFree_bind; [apply LockFree_call |].
  intros [err|]; [constructor |].
  apply LockFree_bind; [apply LockFree_commitMessages |].
  intros [err|]; constructor.
Qed.

(** [Send] is: take the mutex, fetch, dispatch the batch, release. *)
Lemma run_Send (w : W) (o : Outcome (result (list Message)) W) :
  run h listMailMessages false w = Some o ->
  run h (Send Getenv) false w
  = match returned o with
    | inl err => Some (mkOutcome (Some err) false (world o) (ObsLock :: trace o ++ [ObsUnlock]))
    | inr rawsMessages =>
        match run h (dispatch Getenv rawsMessages) true (world o) with
        | None => None
        | Some o2 =>
            Some (mkOutcome (returned o2) false (world o2)
                    (ObsLock :: trace o ++ trace o2 ++ [ObsUnlock]))
        end
    end.
Proof.
  intros Ho.
  destruct (run_LockFree h listMailMessages LockFree_listMailMessages false w)
    as (o' & Ho' & _ & Hl).
  rewrite Ho in Ho'. injection Ho' as <-.
  unfold Send, sendLocked.
  rewrite run_bind.
  change (run h (trigger Lock) false w) with (Some (mkOutcome tt true w [ObsLock])).
  cbn [returned mutex world trace].
  rewrite !run_bind, (Hl true).
  cbn [returned mutex world trace].
  destruct (returned o) as [err|rawsMessages].
  - cbn. now rewrite app_nil_r.
  - destruct (run_LockFree h _ (LockFree_dispatch rawsMessages) true (world o))
      as (o2 & Ho2 & Hm2 & _).
    rewrite Ho2. destruct o2 as [r m w2 t]. simpl in Hm2. subst m.
    cbn [returned mutex world trace].
    rewrite run_bind.
    change (run h (trigger Unlock) true w2) with (Some (mkOutcome tt false w2 [ObsUnlock])).
    cbn. now rewrite <- app_assoc.
Qed.

(** [ListMessages] returns what the fetch returns. *)
Lemma run_ListMessages (w : W) :
  exists o,
    run h ListMessages false w = Some o
    /\ run h listMailMessages false w = Some o.
Proof.
  destruct (run_LockFree h listMailMessages LockFree_listMailMessages false w)
    as (o & Ho & Hm & _).
  exists o. split; [|exact Ho].
  unfold ListMessages. rewrite run_bind, Ho.
  destruct o as [[err|ms] m w' t]; simpl in *; subst m; now rewrite app_nil_r.
Qed.

Lemma run_dispatch_nil (l : bool) (w : W) :
  run h (dispatch Getenv []) l w = Some (mkOutcome None l w []).
Proof. reflexivity. Qed.

Lemma run_dispatch (rawsMessages : list Message) (l : bool) (w : W) :
  rawsMessages <> [] ->
  run h (dispatch Getenv rawsMessages) l w
  = let (out, w2) :=
      h _ (DialAndSend (dialer Getenv) (buildMessages Getenv rawsMessages [])) w in
    match out with
    | Some err =>
        Some (mkOutcome (Some err) l w2
                [ObsDialAndSend (dialer Getenv) (buildMessages Getenv rawsMessages []) (Some err)])
    | None =>
        match run h (commitMessages rawsMessages) l w2 with
        | None => None
        | Some o =>
            Some (mkOutcome (returned o) (mutex o) (world o)
                    (ObsDialAndSend (dialer Getenv) (buildMessages Getenv rawsMessages []) None
                     :: trace o))
        end
    end.
Proof.
  intros Hne. unfold dispatch.
  rewrite decide_False by (destruct rawsMessages; [congruence | discriminate]).
  rewrite run_bind, run_call.
  destruct (h _ (DialAndSend (dialer Getenv) (buildMessages Getenv rawsMessages [])) w)
    as [[err|] w2]; cbn [returned mutex world trace fst snd observe].
  - reflexivity.
  - rewrite run_bind.
    destruct (run h (commitMessages rawsMessages) l w2) as [[[err|] m w3 t]|];
      cbn; rewrite ?app_nil_r; reflexivity.
Qed.

(** The fetch makes no transport call and no status-commit call. *)
Lemma fetch_calls (l : bool) (w : W) (o : Outcome (result (list Message)) W) :
  run h listMailMessages l w = Some o ->
  calls isTransportCall (trace o) = 0 /\ calls isCommitCall (trace o) = 0.
Proof.
  unfold listMailMessages. cbn.
  destruct (h _ (ExecContext "EXEC dbo.pd_wiseSendEmail" []) w) as [[err|] w1]; cbn.
  - intros [= <-]. split; reflexivity.
  - destruct (h _ Today w1) as [today w2]; cbn.
    destruct (h _ (QueryContext (pendingQuery today)) w2) as [[err|rows] w3]; cbn.
    + intros [= <-]. split; reflexivity.
    + destruct (scanRows (sql.columns rows) (sql.data rows) []); cbn.
      * intros [= <-]. split; reflexivity.
      * destruct (sql.iterErr rows); cbn; intros [= <-]; split; reflexivity.
Qed.

Lemma calls_app (kind : Obs -> bool) (t1 t2 : list Obs) :
  calls kind (t1 ++ t2) = calls kind t1 + calls kind t2.
Proof. unfold calls. now rewrite List.filter_app, length_app. Qed.

Lemma calls_commitCalls (ms : list Message) :
  calls isCommitCall (map (fun m => commitCall m None) ms) = length ms
  /\ calls isTransportCall (map (fun m => commitCall m None) ms) = 0.
Proof.
  induction ms as [|m ms [IH1 IH2]]; [split; reflexivity |].
  split.
  - change (S (calls isCommitCall (map (fun m => commitCall m None) ms)) = S (length ms)).
    now rewrite IH1.
  - exact IH2.
Qed.

End Cycle.

(** ** Properties of the dispatch cycle *)

Section CycleProperties.

Context {W : Type} (h : Handler W).
Variable Getenv : string -> string.

(** C7. If the fetch returns an empty batch, [Send] returns nil; after the
    fetch it performs no call at all (it only releases the mutex), so there
    is no transport call and no status-commit call, and the world is left as
    the fetch left it. *)
Theorem C7_empty_batch_returns_nil_without_calls
    (w : W) (o : Outcome (result (list Message)) W) :
  run h listMailMessages false w = Some o ->
  returned o = inr [] ->
  exists out,
    run h (Send Getenv) false w = Some out
    /\ returned out = None
    /\ world out = world o
    /\ trace out = ObsLock :: trace o ++ [ObsUnlock]
    /\ calls isTransportCall (trace out) = 0
    /\ calls isCommitCall (trace out) = 0.
Proof.
  intros Ho Hr.
  destruct (fetch_calls h false w o Ho) as [Ht Hc].
  rewrite (run_Send h Getenv w o Ho), Hr, run_dispatch_nil.
  eexists; split; [reflexivity |]. cbn [returned world trace].
  rewrite app_nil_l.
  repeat split.
  - change (ObsLock :: trace o ++ [ObsUnlock]) with ([ObsLock] ++ trace o ++ [ObsUnlock]).
    rewrite !calls_app, Ht. reflexivity.
  - change (ObsLock :: trace o ++ [ObsUnlock]) with ([ObsLock] ++ trace o ++ [ObsUnlock]).
    rewrite !calls_app, Hc. reflexivity.
Qed.

(** C2. If the transport's DialAndSend returns an error, [Send] returns that
    error and makes no status-commit call: the world is the one the failed
    send left, and nothing follows the send but the release of the mutex. *)
Theorem C2_transport_error_returned_without_commit
    (w : W) (o : Outcome (result (list Message)) W)
    (rawsMessages : list Message) (err : error) (w2 : W) :
  run h listMailMessages false w = Some o ->
  returned o = inr rawsMessages ->
  rawsMessages <> [] ->
  h _ (DialAndSend (dialer Getenv) (buildMessages Getenv rawsMessages [])) (world o)
    = (Some err, w2) ->
  exists out,
    run h (Send Getenv) false w = Some out
    /\ returned out = Some err
    /\ world out = w2
    /\ trace out
       = ObsLock :: trace o
         ++ [ObsDialAndSend (dialer Getenv) (buildMessages Getenv rawsMessages []) (Some err);
             ObsUnlock]
    /\ calls isCommitCall (trace out) = 0.
Proof.
  intros Ho Hr Hne Hsend.
  destruct (fetch_calls h false w o Ho) as [_ Hc].
  rewrite (run_Send h Getenv w o Ho), Hr, run_dispatch, Hsend by exact Hne.
  eexists; split; [reflexivity |]. cbn [returned world trace].
  repeat split.
  change (calls isCommitCall
            ([ObsLock] ++ trace o
             ++ [ObsDialAndSend (dialer Getenv) (buildMessages Getenv rawsMessages []) (Some err);
                 ObsUnlock]) = 0).
  rewrite !calls_app, Hc. reflexivity.
Qed.

(** C1. If the transport send succeeds, [Send] makes the status-commit calls
    one message at a time, in fetch order, each with the message's
    transaction number.  Either every call succeeds, there is one call per
    fetched message and [Send] returns nil; or a call fails, [Send] returns
    that call's error, no call is made for the messages after it, and the
    world is the one that the calls made so far have produced (nothing is
    undone: only the release of the mutex follows). *)
Theorem C1_commits_follow_fetch_order_and_stop_at_first_error
    (w : W) (o : Outcome (result (list Message)) W)
    (rawsMessages : list Message) (w2 : W) :
  run h listMailMessages false w = Some o ->
  returned o = inr rawsMessages ->
  rawsMessages <> [] ->
  h _ (DialAndSend (dialer Getenv) (buildMessages Getenv rawsMessages [])) (world o)
    = (None, w2) ->
  exists out commits,
    run h (Send Getenv) false w = Some out
    /\ trace out
       = ObsLock :: trace o
         ++ ObsDialAndSend (dialer Getenv) (buildMessages Getenv rawsMessages []) None
            :: commits ++ [ObsUnlock]
    /\ ((returned out = None
         /\ commits = map (fun m => commitCall m None) rawsMessages
         /\ calls isCommitCall (trace out) = length rawsMessages
         /\ world out = foldl (afterCommit h) w2 rawsMessages)
        \/ (exists pre m post err,
              rawsMessages = pre ++ m :: post
              /\ returned out = Some err
              /\ commits = map (fun m => commitCall m None) pre ++ [commitCall m (Some err)]
              /\ calls isCommitCall (trace out) = length pre + 1
              /\ world out = foldl (afterCommit h) w2 (pre ++ [m]))).
Proof.
  intros Ho Hr Hne Hsend.
  destruct (fetch_calls h false w o Ho) as [_ Hc].
  rewrite (run_Send h Getenv w o Ho), Hr, run_dispatch, Hsend by exact Hne.
  destruct (run_commitMessages h rawsMessages true w2) as (oc & Hoc & _ & Hcases).
  rewrite Hoc. exists (mkOutcome (returned oc) false (world oc)
                         (ObsLock :: trace o
                          ++ (ObsDialAndSend (dialer Getenv)
                                (buildMessages Getenv rawsMessages []) None :: trace oc)
                          ++ [ObsUnlock])), (trace oc).
  split; [reflexivity |]. cbn [returned world trace].
  split; [reflexivity |].
  assert (Hcount : forall t,
             calls isCommitCall
               (ObsLock :: trace o
                ++ (ObsDialAndSend (dialer Getenv)
                      (buildMessages Getenv rawsMessages []) None :: t) ++ [ObsUnlock])
             = calls isCommitCall t).
  { intros t.
    change (calls isCommitCall
              ([ObsLock] ++ trace o
               ++ ([ObsDialAndSend (dialer Getenv)
                      (buildMessages Getenv rawsMessages []) None] ++ t) ++ [ObsUnlock])
            = calls isCommitCall t).
    rewrite !calls_app, Hc.
    change (calls isCommitCall [ObsLock]) with 0.
    change (calls isCommitCall [ObsUnlock]) with 0.
    change (calls isCommitCall
              [ObsDialAndSend (dialer Getenv) (buildMessages Getenv rawsMessages []) None])
      with 0.
    lia. }
  rewrite Hcount.
  destruct Hcases as [(Hret & Ht & Hw) | (pre & m & post & err & Hsplit & Hret & Ht & Hw)].
  - left. rewrite Hret, Ht, Hw.
    repeat split. apply calls_commitCalls.
  - right. exists pre, m, post, err. rewrite Hret, Ht, Hw.
    repeat split; [exact Hsplit |].
    rewrite calls_app. rewrite (proj1 (calls_commitCalls pre)). reflexivity.
Qed.

(** C10. [ListMessages] runs [listMailMessages] and returns what it returns:
    from any state of the world it yields the same batch (or the same
    error), leaves the same world and makes the same calls as the fetch; and
    a dispatch cycle started from that state fetches this very batch and
    dispatches it ([dispatch] builds, sends and commits it in that order). *)
Theorem C10_ListMessages_returns_the_batch_Send_fetches (w : W) :
  exists o,
    run h ListMessages false w = Some o
    /\ run h listMailMessages false w = Some o
    /\ run h (Send Getenv) false w
       = match returned o with
         | inl err =>
             Some (mkOutcome (Some err) false (world o) (ObsLock :: trace o ++ [ObsUnlock]))
         | inr batch =>
             match run h (dispatch Getenv batch) true (world o) with
             | None => None
             | Some o2 =>
                 Some (mkOutcome (returned o2) false (world o2)
                         (ObsLock :: trace o ++ trace o2 ++ [ObsUnlock]))
             end
         end.
Proof.
  destruct (run_ListMessages h w) as (o & HL & Ho).
  exists o. split; [exact HL |]. split; [exact Ho | exact (run_Send h Getenv w o Ho)].
Qed.

End CycleProperties.

(** ** The fetch, for any database *)

Lemma scanRows_Forall2 (names : list string) (rows : list (list sql.value)) :
  forall acc ms : list Message,
    scanRows names rows acc = inr ms ->
    exists ms', ms = acc ++ ms'
      /\ Forall2 (fun cols m => scanMessage names cols = inr m) rows ms'.
Proof.
  induction rows as [|cols rest IH]; intros acc ms; simpl.
  - intros [= <-]. exists []. split; [now rewrite app_nil_r | constructor].
  - destruct (scanMessage names cols) as [err|m] eqn:E; [discriminate |].
    intros Hrest. destruct (IH _ _ Hrest) as (ms' & -> & HF).
    exists (m :: ms'). split; [now rewrite <- app_assoc | now constructor].
Qed.

(** A fetch that returns a batch made three calls: the generation
    procedure, the clock, the SELECT; every message of the batch was scanned
    from the row at the same position of the result set. *)
Lemma fetch_success {W : Type} (h : Handler W) (l : bool) (w : W)
    (o : Outcome (result (list Message)) W) (ms : list Message) :
  run h listMailMessages l w = Some o ->
  returned o = inr ms ->
  exists w1 today w2 rows,
    h _ (ExecContext "EXEC dbo.pd_wiseSendEmail" []) w = (None, w1)
    /\ h _ Today w1 = (today, w2)
    /\ h _ (QueryContext (pendingQuery today)) w2 = (inr rows, world o)
    /\ sql.iterErr rows = None
    /\ Forall2 (fun cols m => scanMessage (sql.columns rows) cols = inr m) (sql.data rows) ms
    /\ trace o = [ObsExec "EXEC dbo.pd_wiseSendEmail" [] None; ObsToday today;
                  ObsQuery (pendingQuery today) (inr rows)].
Proof.
  unfold listMailMessages. cbn.
  destruct (h _ (ExecContext "EXEC dbo.pd_wiseSendEmail" []) w) as [[err|] w1]; cbn.
  { intros [= <-]. discriminate. }
  destruct (h _ Today w1) as [today w2] eqn:Htoday; cbn.
  destruct (h _ (QueryContext (pendingQuery today)) w2) as [[err|rows] w3] eqn:Hq; cbn.
  { intros [= <-]. discriminate. }
  destruct (scanRows (sql.columns rows) (sql.data rows) []) as [err|ms'] eqn:Hscan; cbn.
  { intros [= <-]. discriminate. }
  destruct (sql.iterErr rows) as [err|] eqn:Hit; cbn; intros [= <-]; [discriminate |].
  cbn. intros [= <-].
  destruct (scanRows_Forall2 _ _ _ _ Hscan) as (ms'' & -> & HF).
  exists w1, today, w2, rows. repeat split; try assumption.
Qed.

(** ** The email builder *)

Lemma transportBatches_app (t1 t2 : list Obs) :
  transportBatches (t1 ++ t2) = transportBatches t1 ++ transportBatches t2.
Proof. apply flat_map_app. Qed.

Lemma transportBatches_commits (ms : list Message) :
  transportBatches (map (fun m => commitCall m None) ms) = [].
Proof. induction ms as [|m ms IH]; [reflexivity | exact IH]. Qed.

Lemma buildMessage_fields (Getenv : string -> string) (msg : Message) :
  mail.parts (buildMessage Getenv msg)
  = [mail.mkPart "text/html"
       ("<html><body style=" +:+ String "034"%char "font-family: Saysettha OT;"
        +:+ String "034"%char ">" +:+ Content msg +:+ "</body></html>")]
  /\ mail.header (buildMessage Getenv msg) !! "To" = Some (ToAddresses msg)
  /\ mail.header (buildMessage Getenv msg) !! "CC" = Some (BCCAddresses msg)
  /\ mail.header (buildMessage Getenv msg) !! "Bcc" = None
  /\ mail.header (buildMessage Getenv msg) !! "Subject" = Some [Subject msg]
  /\ mail.header (buildMessage Getenv msg) !! "From" = Some [Getenv "MAIL_FROM"].
Proof.
  unfold buildMessage, mail.SetBody, mail.SetHeader, mail.NewMessage.
  cbn [mail.header mail.parts].
  split; [reflexivity |].
  repeat split; by simplify_map_eq.
Qed.

(** The two recipient lists of a scanned message come from the fifth and
    the sixth column of its row. *)
Lemma scanMessage_recipients (names : list string) (cols : list sql.value) (msg : Message) :
  scanMessage names cols = inr msg ->
  exists vTo vBcc rawTo rawBcc,
    cols !! 4 = Some vTo /\ cols !! 5 = Some vBcc
    /\ sql.scan_NullString vTo = inr rawTo
    /\ sql.scan_NullString vBcc = inr rawBcc
    /\ ToAddresses msg = parseAddresses rawTo
    /\ BCCAddresses msg = parseAddresses rawBcc.
Proof.
  do 12 (destruct cols as [|? cols]; try discriminate).
  unfold scanMessage.
  repeat match goal with
         | |- context [match ?scan ?v with inl _ => _ | inr _ => _ end] =>
             destruct (scan v) eqn:?; try discriminate
         end.
  intros [= <-]. do 4 eexists. repeat split; eassumption.
Qed.

(** C6. For a fetched batch: the built batch is the list of the emails built
    from the fetched messages, one each and in fetch order (same length);
    every built email has the body [<html><body style="font-family:
    Saysettha OT;">] + Content + [</body></html>] as its single text/html
    part, To set to the message's ToAddresses, CC set to its BCCAddresses
    (and no Bcc header), Subject set to the message's Subject and From set
    to the value of MAIL_FROM; ToAddresses and BCCAddresses are the parsed
    fifth (toaddress) and sixth (bccaddress) column of the message's row;
    and when the batch is not empty, it is this built batch that [Send]
    hands to the transport, in its only transport call. *)
Theorem C6_built_batch_maps_fetched_messages_in_order
    {W : Type} (h : Handler W) (Getenv : string -> string)
    (w : W) (o : Outcome (result (list Message)) W) (rawsMessages : list Message) :
  run h listMailMessages false w = Some o ->
  returned o = inr rawsMessages ->
  buildMessages Getenv rawsMessages [] = map (buildMessage Getenv) rawsMessages
  /\ length (buildMessages Getenv rawsMessages []) = length rawsMessages
  /\ Forall (fun msg =>
       mail.parts (buildMessage Getenv msg)
       = [mail.mkPart "text/html"
            ("<html><body style=" +:+ String "034"%char "font-family: Saysettha OT;"
             +:+ String "034"%char ">" +:+ Content msg +:+ "</body></html>")]
       /\ mail.header (buildMessage Getenv msg) !! "To" = Some (ToAddresses msg)
       /\ mail.header (buildMessage Getenv msg) !! "CC" = Some (BCCAddresses msg)
       /\ mail.header (buildMessage Getenv msg) !! "Bcc" = None
       /\ mail.header (buildMessage Getenv msg) !! "Subject" = Some [Subject msg]
       /\ mail.header (buildMessage Getenv msg) !! "From" = Some [Getenv "MAIL_FROM"])
       rawsMessages
  /\ (exists today rows,
        ObsQuery (pendingQuery today) (inr rows) ∈ trace o
        /\ sq.SelectList (pendingQuery today) !! 4 = Some "toaddress"
        /\ sq.SelectList (pendingQuery today) !! 5 = Some "bccaddress"
        /\ Forall2 (fun cols msg =>
             exists vTo vBcc rawTo rawBcc,
               cols !! 4 = Some vTo /\ cols !! 5 = Some vBcc
               /\ sql.scan_NullString vTo = inr rawTo
               /\ sql.scan_NullString vBcc = inr rawBcc
               /\ mail.header (buildMessage Getenv msg) !! "To"
                  = Some (parseAddresses rawTo)
               /\ mail.header (buildMessage Getenv msg) !! "CC"
                  = Some (parseAddresses rawBcc))
             (sql.data rows) rawsMessages)
  /\ (rawsMessages = []
      \/ exists out,
           run h (Send Getenv) false w = Some out
           /\ transportBatches (trace out) = [map (buildMessage Getenv) rawsMessages]).
Proof.
  intros Ho Hr.
  split; [apply buildMessages_map |].
  split; [now rewrite buildMessages_map, length_map |].
  split; [apply Forall_forall; intros msg _; apply buildMessage_fields |].
  destruct (fetch_success h false w o rawsMessages Ho Hr)
    as (w1 & today & w2 & rows & _ & _ & _ & _ & HF & Ht).
  split.
  - exists today, rows. rewrite Ht.
    split; [repeat constructor |].
    split; [reflexivity |]. split; [reflexivity |].
    eapply Forall2_impl; [exact HF |].
    intros cols msg Hscan.
    destruct (scanMessage_recipients _ cols msg Hscan)
      as (vTo & vBcc & rawTo & rawBcc & H4 & H5 & HsTo & HsBcc & HTo & HBcc).
    exists vTo, vBcc, rawTo, rawBcc.
    destruct (buildMessage_fields Getenv msg) as (_ & HhTo & HhCC & _).
    rewrite HhTo, HhCC, HTo, HBcc. repeat split; assumption.
  - destruct (decide (rawsMessages = [])) as [Hnil|Hne]; [left; exact Hnil | right].
    rewrite (run_Send h Getenv w o Ho), Hr, run_dispatch by exact Hne.
    rewrite buildMessages_map.
    destruct (h _ (DialAndSend (dialer Getenv) (map (buildMessage Getenv) rawsMessages))
                (world o)) as [[err|] w3].
    + eexists. split; [reflexivity |]. cbn [trace].
      rewrite Ht. reflexivity.
    + destruct (run_commitMessages h rawsMessages true w3) as (oc & Hoc & _ & Hcases).
      rewrite Hoc. eexists. split; [reflexivity |]. cbn [trace].
      rewrite Ht.
      change (transportBatches
                ([ObsLock; ObsExec "EXEC dbo.pd_wiseSendEmail" [] None; ObsToday today;
                  ObsQuery (pendingQuery today) (inr rows);
                  ObsDialAndSend (dialer Getenv) (map (buildMessage Getenv) rawsMessages) None]
                 ++ trace oc ++ [ObsUnlock])
              = [map (buildMessage Getenv) rawsMessages]).
      rewrite !transportBatches_app.
      destruct Hcases as [(_ & Htc & _) | (pre & m0 & post & e0 & _ & _ & Htc & _)];
        rewrite Htc, ?transportBatches_app, transportBatches_commits; reflexivity.
Qed.

(** ** The dispatch cycle at sample worlds *)

Lemma C7_witness :
  exists o,
    run sample.healthy listMailMessages false sample.worldNone = Some o
    /\ returned o = inr []
    /\ exists out,
        run sample.healthy (Send sample.Getenv) false sample.worldNone = Some out
        /\ returned out = None
        /\ world out = world o
        /\ trace out = ObsLock :: trace o ++ [ObsUnlock]
        /\ calls isTransportCall (trace out) = 0
        /\ calls isCommitCall (trace out) = 0.
Proof.
  eexists. split; [vm_compute; reflexivity |].
  split; [reflexivity |].
  apply (C7_empty_batch_returns_nil_without_calls sample.healthy sample.Getenv
           sample.worldNone);
    [vm_compute; reflexivity | reflexivity].
Defined.

Lemma C2_witness :
  exists o rawsMessages err w2,
    run sample.relayDown listMailMessages false sample.worldTwo = Some o
    /\ returned o = inr rawsMessages
    /\ length rawsMessages = 2
    /\ sample.relayDown _
         (DialAndSend (dialer sample.Getenv) (buildMessages sample.Getenv rawsMessages []))
         (world o) = (Some err, w2)
    /\ exists out,
        run sample.relayDown (Send sample.Getenv) false sample.worldTwo = Some out
        /\ returned out = Some err
        /\ world out = w2
        /\ trace out
           = ObsLock :: trace o
             ++ [ObsDialAndSend (dialer sample.Getenv)
                   (buildMessages sample.Getenv rawsMessages []) (Some err);
                 ObsUnlock]
        /\ calls isCommitCall (trace out) = 0.
Proof.
  eexists. eexists. eexists. eexists.
  split; [vm_compute; reflexivity |].
  split; [reflexivity |].
  split; [reflexivity |].
  split; [vm_compute; reflexivity |].
  apply (C2_transport_error_returned_without_commit sample.relayDown sample.Getenv
           sample.worldTwo);
    [vm_compute; reflexivity | reflexivity | discriminate | vm_compute; reflexivity].
Defined.

Lemma C1_witness :
  exists o rawsMessages w2,
    run sample.commitFails listMailMessages false sample.worldTwo = Some o
    /\ returned o = inr rawsMessages
    /\ map TxnNo rawsMessages = ["TX-3"; "TX-7"]
    /\ sample.commitFails _
         (DialAndSend (dialer sample.Getenv) (buildMessages sample.Getenv rawsMessages []))
         (world o) = (None, w2)
    /\ exists out commits,
        run sample.commitFails (Send sample.Getenv) false sample.worldTwo = Some out
        /\ trace out
           = ObsLock :: trace o
             ++ ObsDialAndSend (dialer sample.Getenv)
                  (buildMessages sample.Getenv rawsMessages []) None
                :: commits ++ [ObsUnlock]
        /\ ((returned out = None
             /\ commits = map (fun m => commitCall m None) rawsMessages
             /\ calls isCommitCall (trace out) = length rawsMessages
             /\ world out = foldl (afterCommit sample.commitFails) w2 rawsMessages)
            \/ (exists pre m post err,
                  rawsMessages = pre ++ m :: post
                  /\ returned out = Some err
                  /\ commits
                     = map (fun m => commitCall m None) pre ++ [commitCall m (Some err)]
                  /\ calls isCommitCall (trace out) = length pre + 1
                  /\ world out = foldl (afterCommit sample.commitFails) w2 (pre ++ [m]))).
Proof.
  eexists. eexists. eexists.
  split; [vm_compute; reflexivity |].
  split; [reflexivity |].
  split; [reflexivity |].
  split; [vm_compute; reflexivity |].
  apply (C1_commits_follow_fetch_order_and_stop_at_first_error sample.commitFails
           sample.Getenv sample.worldTwo);
    [vm_compute; reflexivity | reflexivity | discriminate | vm_compute; reflexivity].
Defined.

(** Scenario B: both rows of the day, the relay accepts: two commits, for
    TX-3 then TX-7, and both rows end up SEND. *)
Example healthy_cycle :
  exists out,
    run sample.healthy (Send sample.Getenv) false sample.worldTwo = Some out
    /\ returned out = None
    /\ List.filter isCommitCall (trace out)
       = [ObsExec updateStatement [("txnno", "TX-3")] None;
          ObsExec updateStatement [("txnno", "TX-7")] None]
    /\ map storage.rectype (table (world out)) = [Some "SEND"; Some "SEND"; Some "ADD"]
    /\ length (outbox (world out)) = 1.
Proof. eexists. split; [vm_compute; reflexivity |]. vm_compute. repeat split. Qed.

(** Scenario D: the commit for TX-7 fails: TX-3 stays committed, [Send]
    returns the error. *)
Example failing_commit_cycle :
  exists out,
    run sample.commitFails (Send sample.Getenv) false sample.worldTwo = Some out
    /\ returned out = Some (errorString "mssql: deadlock victim")
    /\ List.filter isCommitCall (trace out)
       = [ObsExec updateStatement [("txnno", "TX-3")] None;
          ObsExec updateStatement [("txnno", "TX-7")]
            (Some (errorString "mssql: deadlock victim"))]
    /\ map storage.rectype (table (world out)) = [Some "ADD"; Some "SEND"; Some "ADD"].
Proof. eexists. split; [vm_compute; reflexivity |]. vm_compute. repeat split. Qed.

Lemma C6_witness :
  exists o rawsMessages,
    run sample.healthy listMailMessages false sample.worldTwo = Some o
    /\ returned o = inr rawsMessages
    /\ map TxnNo rawsMessages = ["TX-3"; "TX-7"]
    /\ buildMessages sample.Getenv rawsMessages []
       = map (buildMessage sample.Getenv) rawsMessages.
Proof.
  eexists. eexists.
  split; [vm_compute; reflexivity |].
  split; [reflexivity |].
  split; [reflexivity |].
  refine (proj1 (C6_built_batch_maps_fetched_messages_in_order sample.healthy
                   sample.Getenv sample.worldTwo _ _ _ _));
    [vm_compute; reflexivity | reflexivity].
Defined.

(** ** The recipient list of a built email *)

Lemma fieldsFrom_nil (s : string) :
  strings.fieldsFrom isSemicolon s None = [] <-> Forall (fun c => c = ";"%char) (chars s).
Proof.
  rewrite fieldsFrom_splitOn by discriminate. simpl.
  rewrite attach_empty by apply splitOn_nonnil.
  induction s as [|c s IH]; simpl.
  - rewrite filter_cons_False by (intros H; now apply H). split; [constructor | reflexivity].
  - pose proof (splitOn_nonnil ";" s) as Hnn.
    destruct (ascii_dec c ";"%char) as [->|Hne].
    + rewrite decide_True by reflexivity.
      rewrite filter_cons_False by (intros H; now apply H).
      rewrite IH. split; [now constructor | now inversion 1].
    + rewrite decide_False by exact Hne.
      destruct (splitOn ";" s) as [|w' ws]; [congruence |].
      rewrite filter_cons_True by discriminate.
      split; [discriminate | inversion 1; congruence].
Qed.

(** The parsed list is empty exactly when the column is NULL or holds
    nothing but delimiters. *)
Lemma parseAddresses_nil (raw : NullString) :
  parseAddresses raw = []
  <-> Valid raw = false \/ Forall (fun c => c = ";"%char) (chars (NString raw)).
Proof.
  unfold parseAddresses, strings.FieldsFunc. destruct (Valid raw).
  - rewrite fieldsFrom_nil. split; [now right | now intros [|]].
  - split; [now left | reflexivity].
Qed.

Lemma chars_append (s t : string) : chars (s +:+ t) = chars s ++ chars t.
Proof.
  induction s as [|c s IH]; [reflexivity |].
  rewrite append_cons_l. simpl. now rewrite IH.
Qed.

(** The decimal text of an integer and the RFC3339Nano text of a time hold
    a character other than ';'. *)
Lemma FormatInt_not_semicolons (z : Z) :
  ~ Forall (fun c => c = ";"%char) (chars (strconv.FormatInt z)).
Proof.
  unfold strconv.FormatInt.
  destruct (Z.to_int z) as [d|d]; destruct d; simpl;
    intros H; inversion H; discriminate.
Qed.

Lemma RFC3339Nano_not_semicolons (t : time_Time) :
  ~ Forall (fun c => c = ";"%char) (chars (time.RFC3339Nano t)).
Proof.
  unfold time.RFC3339Nano. rewrite !chars_append. simpl.
  intros H. apply Forall_app in H as [_ H].
  inversion H. discriminate.
Qed.

(** C8, as amended. For every message produced by the fetch, the built
    email's To list is empty exactly when the toaddress column of the
    message's row is NULL or holds no character other than ';' (the empty
    string included). *)
Theorem C8_to_list_empty_iff_null_or_only_delimiters
    {W : Type} (h : Handler W) (Getenv : string -> string)
    (w : W) (o : Outcome (result (list Message)) W) (rawsMessages : list Message) :
  run h listMailMessages false w = Some o ->
  returned o = inr rawsMessages ->
  exists today rows,
    ObsQuery (pendingQuery today) (inr rows) ∈ trace o
    /\ sq.SelectList (pendingQuery today) !! 4 = Some "toaddress"
    /\ Forall2 (fun cols msg =>
         exists vTo,
           cols !! 4 = Some vTo
           /\ (mail.header (buildMessage Getenv msg) !! "To" = Some []
               <-> vTo = sql.VNull
                   \/ exists s, vTo = sql.VStr s
                        /\ Forall (fun c => c = ";"%char) (chars s)))
         (sql.data rows) rawsMessages.
Proof.
  intros Ho Hr.
  destruct (fetch_success h false w o rawsMessages Ho Hr)
    as (w1 & today & w2 & rows & _ & _ & _ & _ & HF & Ht).
  exists today, rows. rewrite Ht.
  split; [repeat constructor |].
  split; [reflexivity |].
  eapply Forall2_impl; [exact HF |].
  intros cols msg Hscan.
  destruct (scanMessage_recipients _ cols msg Hscan)
    as (vTo & vBcc & rawTo & rawBcc & H4 & _ & HsTo & _ & HTo & _).
  exists vTo. split; [exact H4 |].
  destruct (buildMessage_fields Getenv msg) as (_ & HhTo & _).
  rewrite HhTo, HTo.
  assert (Hnil : Some (parseAddresses rawTo) = Some [] <-> parseAddresses rawTo = [])
    by (split; [now intros [= ->] | now intros ->]).
  rewrite Hnil, parseAddresses_nil.
  destruct vTo as [|z|s|t]; simpl in HsTo; injection HsTo as <-; cbn [Valid NString].
  - split; [now left | now left].
  - split.
    + intros [|Hall]; [discriminate |]. now apply FormatInt_not_semicolons in Hall.
    + intros [|(s' & ? & _)]; discriminate.
  - split.
    + intros [|Hall]; [discriminate |]. right. now exists s.
    + intros [|(s' & [= <-] & Hall)]; [discriminate | now right].
  - split.
    + intros [|Hall]; [discriminate |]. now apply RFC3339Nano_not_semicolons in Hall.
    + intros [|(s' & ? & _)]; discriminate.
Qed.

Lemma C8_witness :
  exists o rawsMessages,
    run sample.healthy listMailMessages false sample.worldSemis = Some o
    /\ returned o = inr rawsMessages
    /\ exists today rows,
        ObsQuery (pendingQuery today) (inr rows) ∈ trace o
        /\ sq.SelectList (pendingQuery today) !! 4 = Some "toaddress"
        /\ Forall2 (fun cols msg =>
             exists vTo,
               cols !! 4 = Some vTo
               /\ (mail.header (buildMessage sample.Getenv msg) !! "To" = Some []
                   <-> vTo = sql.VNull
                       \/ exists s, vTo = sql.VStr s
                            /\ Forall (fun c => c = ";"%char) (chars s)))
             (sql.data rows) rawsMessages.
Proof.
  eexists. eexists.
  split; [vm_compute; reflexivity |].
  split; [reflexivity |].
  apply (C8_to_list_empty_iff_null_or_only_delimiters sample.healthy sample.Getenv
           sample.worldSemis);
    [vm_compute; reflexivity | reflexivity].
Defined.

(** C8 as it was stated fails: the row of the sample table has a recipient
    column that is present (it holds ";"), it is fetched, and the email
    built from it has an empty To list. *)
Lemma C8_counterexample :
  exists o msg,
    table sample.worldSemis = [sample.rowSemis]
    /\ storage.toaddress sample.rowSemis = Some ";"
    /\ run sample.healthy listMailMessages false sample.worldSemis = Some o
    /\ returned o = inr [msg]
    /\ ID msg = storage.TWID sample.rowSemis
    /\ mail.header (buildMessage sample.Getenv msg) !! "To" = Some [].
Proof.
  eexists. eexists.
  split; [reflexivity |].
  split; [reflexivity |].
  split; [vm_compute; reflexivity |].
  split; [reflexivity |].
  split; [reflexivity |].
  apply buildMessage_fields.
Qed.

(** ** [ListMessages] and the stored records *)


(** The fetch, case by case, for any database and clock. *)
Lemma fetch_cases {W : Type} (h : Handler W) (l : bool) (w : W) :
  exists o,
    run h listMailMessages l w = Some o /\ mutex o = l
    /\ let (out1, w1) := h _ (ExecContext "EXEC dbo.pd_wiseSendEmail" []) w in
       match out1 with
       | Some err =>
           returned o
           = inl (Errorf "failed to execute stored procedure pd_wiseSendEmail: " err)
           /\ world o = w1
           /\ trace o = [ObsExec "EXEC dbo.pd_wiseSendEmail" [] (Some err)]
       | None =>
           let (today, w2) := h _ Today w1 in
           let (r, w3) := h _ (QueryContext (pendingQuery today)) w2 in
           world o = w3
           /\ trace o = [ObsExec "EXEC dbo.pd_wiseSendEmail" [] None; ObsToday today;
                         ObsQuery (pendingQuery today) r]
           /\ returned o
              = match r with
                | inl err => inl (Errorf "failed to query tb_getEmailWiseSend: " err)
                | inr rows =>
                    match scanRows (sql.columns rows) (sql.data rows) [] with
                    | inl err => inl err
                    | inr ms =>
                        match sql.iterErr rows with
                        | Some err =>
                            inl (Errorf "failed to iterate tb_getEmailWiseSend: " err)
                        | None => inr ms
                        end
                    end
                end
       end.
Proof.
  unfold listMailMessages. cbn.
  destruct (h _ (ExecContext "EXEC dbo.pd_wiseSendEmail" []) w) as [[err|] w1]; cbn.
  - eexists. split; [reflexivity |]. repeat split.
  - destruct (h _ Today w1) as [today w2]; cbn.
    destruct (h _ (QueryContext (pendingQuery today)) w2) as [[err|rows] w3]; cbn.
    + eexists. split; [reflexivity |]. repeat split.
    + destruct (scanRows (sql.columns rows) (sql.data rows) []) as [err|ms]; cbn.
      * eexists. split; [reflexivity |]. repeat split.
      * destruct (sql.iterErr rows); cbn; eexists; (split; [reflexivity |]); repeat split.
Qed.



(** ** The fetch on a database server *)

Lemma selectWhere_pending (today : string) (tb : list storage.Row) :
  storage.selectWhere [sq.ExprEq "rectype" "ADD"; sq.ExprEq "txtdate" today] tb
  = inr (filter (selected today) tb).
Proof.
  induction tb as [|r tb IH]; [reflexivity |].
  cbn [storage.selectWhere]. rewrite IH.
  assert (Hr : storage.holdsAll [sq.ExprEq "rectype" "ADD"; sq.ExprEq "txtdate" today] r
               = inr (bool_decide (selected today r))).
  { change (storage.holdsAll [sq.ExprEq "rectype" "ADD"; sq.ExprEq "txtdate" today] r)
      with (match match storage.str (storage.rectype r) with
                  | sql.VStr s => inr (if decide (s = "ADD") then true else false)
                  | sql.VNull => inr false
                  | _ => inl (errorString
                            "Conversion failed when comparing with a character string.")
                  end with
            | inl err => inl err
            | inr b =>
                match match match storage.str (storage.txtdate r) with
                            | sql.VStr s => inr (if decide (s = today) then true else false)
                            | sql.VNull => inr false
                            | _ => inl (errorString
                                      "Conversion failed when comparing with a character string.")
                            end with
                      | inl err => inl err
                      | inr b0 => inr (b0 && true)
                      end with
                | inl err => inl err
                | inr bs => inr (b && bs)
                end
            end).
    unfold bool_decide, decide.
    destruct (selected_dec today r) as [[H1 H2]|Hn].
    - rewrite H1, H2. simpl.
      destruct (decide_rel eq today today) as [_|Hne]; [reflexivity | congruence].
    - unfold selected in Hn.
      destruct (storage.rectype r) as [s1|], (storage.txtdate r) as [s2|]; simpl;
        repeat match goal with
               | |- context [decide_rel eq ?a ?b] => destruct (decide_rel eq a b); subst
               end;
        try reflexivity.
      exfalso. now apply Hn. }
  rewrite Hr. unfold bool_decide, decide.
  destruct (selected_dec today r) as [Hs|Hs].
  - now rewrite filter_cons_True.
  - now rewrite filter_cons_False.
Qed.

Lemma projectAll_pending (rs : list storage.Row) :
  storage.projectAll pendingColumns rs = inr (map rowValues rs).
Proof.
  induction rs as [|r rs IH]; [reflexivity |].
  cbn [storage.projectAll]. rewrite IH.
  change (storage.project pendingColumns r) with (@inr error _ (rowValues r)).
  reflexivity.
Qed.

(** The result set of the statement of [listMailMessages]: the rows flagged
    ADD for the day, by ascending identifier, the first hundred. *)
Lemma select_pendingQuery (today : string) (tb : list storage.Row) :
  storage.select (pendingQuery today) tb
  = inr (map rowValues
           (take 100 (merge_sort storage.byTWID (filter (selected today) tb)))).
Proof.
  unfold storage.select.
  change (sq.FromTable (pendingQuery today)) with "dbo.tb_getEmailWiseSend".
  rewrite decide_True by reflexivity.
  change (storage.parseSelectList (sq.SelectList (pendingQuery today)))
    with (@inr error _ (Some 100, pendingColumns)).
  change (sq.WhereExprs (pendingQuery today))
    with [sq.ExprEq "rectype" "ADD"; sq.ExprEq "txtdate" today].
  rewrite selectWhere_pending.
  change (sq.OrderByList (pendingQuery today)) with ["TWID ASC"].
  change (storage.orderRows ["TWID ASC"] (filter (selected today) tb))
    with (@inr error _ (merge_sort storage.byTWID (filter (selected today) tb))).
  apply projectAll_pending.
Qed.

Lemma parseAddresses_str (o : option string) (raw : NullString) :
  sql.scan_NullString (storage.str o) = inr raw ->
  parseAddresses raw = parseAddresses_spec o.
Proof.
  destruct o as [s|]; simpl; intros [= <-].
  - unfold parseAddresses. simpl. apply FieldsFunc_splitOn.
  - reflexivity.
Qed.

Lemma scanMessage_rowValues (names : list string) (r : storage.Row) (m : Message) :
  scanMessage names (rowValues r) = inr m -> readFrom r m.
Proof.
  unfold scanMessage, rowValues, readFrom.
  destruct (storage.Txnno r) as [txnno|]; [|discriminate].
  destruct (storage.Ruleid r) as [ruleid|]; [|discriminate].
  destruct (storage.txtdate r) as [date|]; [|discriminate].
  simpl.
  destruct (sql.scan_NullString (storage.str (storage.toaddress r))) as [e|rawTo] eqn:HTo;
    [destruct (storage.toaddress r); discriminate |].
  destruct (sql.scan_NullString (storage.str (storage.bccaddress r))) as [e|rawBcc] eqn:HBcc;
    [destruct (storage.bccaddress r); discriminate |].
  destruct (storage.subjects r) as [subject|]; [|discriminate].
  destruct (storage.contents r) as [content|]; [|discriminate].
  destruct (storage.rectype r) as [status|]; [|discriminate].
  simpl.
  destruct (storage.senddatetime r) as [t|];
    (destruct (storage.comments r) as [comment|]; [|discriminate]);
    simpl; intros [= <-]; simpl;
    rewrite (parseAddresses_str _ _ HTo), (parseAddresses_str _ _ HBcc);
    repeat split.
Qed.

(** What the fetch returns from a database server: messages read from rows
    of the table that the generation procedure left, flagged ADD for the
    day of the clock; at most a hundred of them, by ascending identifier; a
    row flagged ADD for the day is left out only when a hundred rows with
    identifiers not above its own were returned.  (The recipient column
    plays no part in the selection.) *)
Lemma fetch_on_server
    (gen : list storage.Row -> result (list storage.Row))
    (upd : string -> list storage.Row -> result (list storage.Row))
    (relay : mail.Dialer -> list mail.Message -> option error)
    (l : bool) (w : World) (o : Outcome (result (list Message)) World) (ms : list Message) :
  run (server gen upd relay) listMailMessages l w = Some o ->
  returned o = inr ms ->
  exists tb rows,
    gen (table w) = inr tb
    /\ table (world o) = tb
    /\ head (trace o) = Some (ObsExec "EXEC dbo.pd_wiseSendEmail" [] None)
    /\ Forall2 readFrom rows ms
    /\ length ms <= 100
    /\ StronglySorted Z.le (map ID ms)
    /\ Forall (fun r => r ∈ tb /\ selected (clock w) r) rows
    /\ (forall r, r ∈ tb -> selected (clock w) r ->
          r ∈ rows \/ (length ms = 100 /\ Forall (fun m => (ID m <= storage.TWID r)%Z) ms)).
Proof.
  intros Ho Hr.
  destruct (fetch_success _ l w o ms Ho Hr)
    as (w1 & today & w2 & rows & Hexec & Htoday & Hquery & _ & HF & Ht).
  change (server gen upd relay _ (ExecContext "EXEC dbo.pd_wiseSendEmail" []) w)
    with (match gen (table w) with
          | inl err => (Some err, w)
          | inr tb => (None, mkWorld tb (clock w) (outbox w))
          end) in Hexec.
  destruct (gen (table w)) as [err|tb]; [discriminate |].
  injection Hexec as <-.
  injection Htoday as <- <-.
  simpl in Hquery. rewrite select_pendingQuery in Hquery.
  injection Hquery as <- Hw.
  cbn [sql.data clock] in HF.
  set (sorted := merge_sort storage.byTWID (filter (selected (clock w)) tb)) in *.
  apply Forall2_fmap_l in HF.
  assert (HR : Forall2 readFrom (take 100 sorted) ms).
  { eapply Forall2_impl; [exact HF |]. intros r m. apply scanMessage_rowValues. }
  assert (Hlen : length ms = length (take 100 sorted))
    by (symmetry; exact (Forall2_length _ _ _ HR)).
  assert (Hperm : sorted ≡ₚ filter (selected (clock w)) tb)
    by apply merge_sort_Permutation.
  assert (Htotal : Total storage.byTWID)
    by (intros r1 r2; unfold storage.byTWID; lia).
  assert (Htrans : Transitive storage.byTWID)
    by (intros r1 r2 r3; unfold storage.byTWID; lia).
  assert (Hsorted : StronglySorted storage.byTWID sorted)
    by (apply StronglySorted_merge_sort; assumption).
  assert (Hsplit : sorted = take 100 sorted ++ drop 100 sorted)
    by (symmetry; apply take_drop).
  assert (Hids : map ID ms = map storage.TWID (take 100 sorted)).
  { clear -HR. induction HR as [|r m rs ms' Hrm _ IH]; [reflexivity |].
    simpl. f_equal; [apply Hrm | exact IH]. }
  exists tb, (take 100 sorted).
  split; [reflexivity |].
  split; [now rewrite <- Hw |].
  split; [now rewrite Ht |].
  split; [exact HR |].
  split; [rewrite Hlen, length_take; lia |].
  split.
  { rewrite Hids. rewrite Hsplit in Hsorted.
    apply StronglySorted_app_1_l in Hsorted.
    clear -Hsorted. induction Hsorted as [|r rs _ IH Hall]; [constructor |].
    simpl. constructor; [exact IH |].
    apply Forall_fmap. eapply Forall_impl; [exact Hall |]. intros r' Hle. exact Hle. }
  split.
  { apply Forall_forall. intros r Hin.
    assert (Hin' : r ∈ sorted) by (rewrite Hsplit; apply elem_of_app; now left).
    rewrite Hperm in Hin'. apply list_elem_of_filter in Hin'. tauto. }
  intros r Hin Hsel.
  assert (Hin' : r ∈ sorted)
    by (rewrite Hperm; apply list_elem_of_filter; split; assumption).
  rewrite Hsplit in Hin'. apply elem_of_app in Hin' as [Htake|Hdrop]; [now left | right].
  assert (Hfull : length (take 100 sorted) = 100).
  { rewrite length_take. destruct (decide (length sorted <= 100)) as [Hle|]; [|lia].
    rewrite drop_ge in Hdrop by exact Hle. now apply elem_of_nil in Hdrop. }
  split; [now rewrite Hlen |].
  apply Forall_forall. intros m Hm.
  assert (Hmid : ID m ∈ map ID ms) by (apply list_elem_of_fmap; now exists m).
  rewrite Hids in Hmid. apply list_elem_of_fmap in Hmid as (r' & -> & Hr').
  rewrite Hsplit in Hsorted.
  exact (StronglySorted_app_1_elem_of _ _ _ _ _ Hsorted Hr' Hdrop).
Qed.

(** ** The statement sent to the database *)

(** The WHERE clause of the statement compares rectype and txtdate and
    nothing else: [sq.NotEq{"toaddress": nil}] was handed to [Where] as an
    argument of the first predicate, not as a predicate. *)
Example pendingQuery_where (today : string) :
  sq.WhereExprs (pendingQuery today)
  = [sq.ExprEq "rectype" "ADD"; sq.ExprEq "txtdate" today].
Proof. reflexivity. Qed.

(** Two calls of [Where], one predicate each, would have put the test of
    the recipient column into the statement. *)
Example chained_where (today : string) :
  sq.WhereExprs
    (sq.MustSql
       (sq.Where (sq.NotEq [("toaddress", None)]) []
          (sq.Where (sq.Eq [("rectype", Some "ADD"); ("txtdate", Some today)]) []
             (sq.Select pendingColumns))))
  = [sq.ExprEq "rectype" "ADD"; sq.ExprEq "txtdate" today; sq.ExprIsNotNull "toaddress"].
Proof. reflexivity. Qed.

(** C4, at a table where it fails. The table holds two rows of the day
    flagged ADD; the recipient column of the row numbered 5 is NULL.  The
    fetch first executes the generation procedure, then returns both rows in
    ascending order of identifier, the NULL one included, with an empty
    recipient list. *)
Theorem C4_fetch_returns_rows_with_null_recipients :
  exists o ms,
    table sample.worldNull = [sample.rowA; sample.rowNull]
    /\ storage.toaddress sample.rowNull = None
    /\ run sample.healthy listMailMessages false sample.worldNull = Some o
    /\ head (trace o) = Some (ObsExec "EXEC dbo.pd_wiseSendEmail" [] None)
    /\ returned o = inr ms
    /\ map ID ms = [storage.TWID sample.rowNull; storage.TWID sample.rowA]
    /\ map ToAddresses ms = [[]; ["a@x"; "b@x"; "c@x"]]
    /\ map BCCAddresses ms = [["boss@x"]; ["boss@x"]].
Proof.
  eexists. eexists.
  split; [reflexivity |].
  split; [reflexivity |].
  split; [vm_compute; reflexivity |].
  repeat split.
Qed.

(** ** Goroutines calling [Send] concurrently *)

Section Concurrency.

Context {W : Type} (h : Handler W).
Variable Getenv : string -> string.

Lemma ownerAfter_snoc (hist : list (nat * Obs)) (ev : nat * Obs) :
  ownerAfter (hist ++ [ev]) = ownerStep (ownerAfter hist) ev.
Proof. unfold ownerAfter. now rewrite foldl_app. Qed.

Lemma ownerStep_call {X : Type} (e : Ext X) (x : X) (j : nat) :
  ownerStep (Some (Some j)) (j, observe e x) = Some (Some j).
Proof. destruct e; simpl; now rewrite decide_True. Qed.

Lemma Critical_bind {A B : Type} (p : Prog A) (f : A -> Prog B) :
  LockFree p -> (forall a, Critical (f a)) -> Critical (bind p f).
Proof.
  induction 1 as [a | X e k Hk IH]; intros Hf; simpl.
  - apply Hf.
  - constructor. intros x. now apply IH.
Qed.

Lemma LockFree_sendLocked : LockFree (sendLocked Getenv).
Proof.
  unfold sendLocked.
  apply LockFree_bind; [apply LockFree_listMailMessages |].
  intros [err|rawsMessages]; [constructor | apply LockFree_dispatch].
Qed.

(** What is left of [Send] after its [Lock]. *)
Lemma pstep_Send_unlocked (w : W) :
  exists body,
    pstep h (Send Getenv) false w = Some (body, true, w, ObsLock) /\ Critical body.
Proof.
  eexists. split; [reflexivity |].
  apply (Critical_bind (sendLocked Getenv)); [apply LockFree_sendLocked |].
  intros err. constructor. intros []. now exists err.
Qed.

Lemma pstep_Send_locked (w : W) : pstep h (Send Getenv) true w = None.
Proof. reflexivity. Qed.

(** One event of the goroutine that holds the mutex: either it releases the
    mutex and returns, or it makes a call and stays inside its cycle. *)
Lemma pstep_Critical (p p' : Prog (option error)) (l' : bool) (w w' : W) (o : Obs) :
  Critical p ->
  pstep h p true w = Some (p', l', w', o) ->
  (o = ObsUnlock /\ l' = false /\ w' = w /\ exists r, p' = Ret r)
  \/ (isMutexEvent o = false
      /\ (forall j, ownerStep (Some (Some j)) (j, o) = Some (Some j))
      /\ l' = true /\ Critical p').
Proof.
  intros Hc. destruct Hc as [k Hk | X e k Hk]; simpl.
  - intros [= <- <- <- <-]. left. repeat split. apply Hk.
  - destruct (h X e w) as [x w1]. intros [= <- <- <- <-].
    right. split; [apply observe_not_mutex |].
    split; [intros j; apply ownerStep_call |]. split; [reflexivity | apply Hk].
Qed.

Lemma eventsOf_snoc_eq (i : nat) (hist : list (nat * Obs)) (o : Obs) :
  eventsOf i (hist ++ [(i, o)]) = eventsOf i hist ++ [o].
Proof.
  unfold eventsOf. rewrite List.filter_app, List.map_app. cbn.
  now rewrite Nat.eqb_refl.
Qed.

Lemma eventsOf_snoc_ne (i k : nat) (hist : list (nat * Obs)) (o : Obs) :
  k <> i -> eventsOf k (hist ++ [(i, o)]) = eventsOf k hist.
Proof.
  intros Hne. unfold eventsOf. rewrite List.filter_app, List.map_app. cbn.
  destruct (Nat.eqb_spec i k) as [->|_]; [congruence |]. cbn. apply app_nil_r.
Qed.

Lemma invariant_initial (n : nat) (w : W) : invariant Getenv (initial Getenv n w).
Proof.
  exists None. split; [reflexivity |]. split; [reflexivity |].
  split; [discriminate |].
  intros i p Hp. apply lookup_replicate in Hp as [-> _].
  left. split; [reflexivity |]. split; [reflexivity | discriminate].
Qed.

Lemma invariant_step (i : nat) (c c' : Config W) :
  invariant Getenv c -> cstep h i c c' -> invariant Getenv c'.
Proof.
  intros (owner & Hown & Hl & Hin & Hall) Hstep.
  destruct Hstep as [c p p' l' w' o Hp Hps].
  pose proof (lookup_lt_Some _ _ _ Hp) as Hlen.
  unfold invariant. cbn [history locked pool].
  rewrite ownerAfter_snoc, Hown.
  destruct (Hall i p Hp)
    as [(-> & Hev & Hno) | [(Hcrit & -> & body & Hev & Hbody) | ((r & ->) & _)]].
  - (* the goroutine takes the mutex *)
    rewrite Hl in Hps.
    destruct owner as [j|]; [rewrite pstep_Send_locked in Hps; discriminate |].
    destruct (pstep_Send_unlocked (shared c)) as (rest & Hrest & Hcrit).
    rewrite Hrest in Hps. injection Hps as <- <- <- <-.
    exists (Some i). split; [reflexivity |]. split; [reflexivity |]. split.
    + intros j [= <-]. rewrite list_lookup_insert_eq by exact Hlen. now eexists.
    + intros k q Hq. destruct (decide (k = i)) as [->|Hne].
      * rewrite list_lookup_insert_eq in Hq by exact Hlen. injection Hq as <-.
        rewrite eventsOf_snoc_eq, Hev.
        right; left. split; [exact Hcrit |]. split; [reflexivity |].
        exists []. split; reflexivity.
      * rewrite list_lookup_insert_ne in Hq by congruence.
        rewrite eventsOf_snoc_ne by exact Hne.
        destruct (Hall k q Hq) as [(E1 & E2 & _) | [(_ & E & _) | (E1 & _ & E3)]].
        -- left. split; [exact E1 |]. split; [exact E2 | congruence].
        -- discriminate.
        -- right; right. split; [exact E1 |]. split; [congruence | exact E3].
  - (* the goroutine holds the mutex *)
    cbn in Hl. rewrite Hl in Hps.
    destruct (pstep_Critical _ _ _ _ _ _ Hcrit Hps)
      as [(-> & -> & -> & r & ->) | (Hcall & Hstay & -> & Hcrit')].
    + exists None. split; [simpl; now rewrite decide_True |].
      split; [reflexivity |]. split; [discriminate |].
      intros k q Hq. destruct (decide (k = i)) as [->|Hne].
      * rewrite list_lookup_insert_eq in Hq by exact Hlen. injection Hq as <-.
        rewrite eventsOf_snoc_eq, Hev.
        right; right. split; [now exists r |]. split; [discriminate |].
        exists body. split; [reflexivity | exact Hbody].
      * rewrite list_lookup_insert_ne in Hq by congruence.
        rewrite eventsOf_snoc_ne by exact Hne.
        destruct (Hall k q Hq) as [(E1 & E2 & _) | [(_ & E & _) | (E1 & _ & E3)]].
        -- left. split; [exact E1 |]. split; [exact E2 | discriminate].
        -- congruence.
        -- right; right. split; [exact E1 |]. split; [discriminate | exact E3].
    + exists (Some i). split; [apply Hstay |]. split; [reflexivity |]. split.
      * intros j [= <-]. rewrite list_lookup_insert_eq by exact Hlen. now eexists.
      * intros k q Hq. destruct (decide (k = i)) as [->|Hne].
        -- rewrite list_lookup_insert_eq in Hq by exact Hlen. injection Hq as <-.
           rewrite eventsOf_snoc_eq, Hev.
           right; left. split; [exact Hcrit' |]. split; [reflexivity |].
           exists (body ++ [o]). split; [reflexivity |].
           rewrite calls_app, Hbody. unfold calls. cbn. now rewrite Hcall.
        -- rewrite list_lookup_insert_ne in Hq by congruence.
           rewrite eventsOf_snoc_ne by exact Hne.
           exact (Hall k q Hq).
  - (* the goroutine has returned *)
    discriminate Hps.
Qed.

Lemma invariant_reachable (n : nat) (w : W) (c : Config W) :
  reachable h (initial Getenv n w) c -> invariant Getenv c.
Proof.
  induction 1 as [|c c' i _ IH Hstep]; [apply invariant_initial |].
  exact (invariant_step i c c' IH Hstep).
Qed.

(** Running a program is performing its first event and running the rest. *)
Lemma run_pstep {A : Type} (p p' : Prog A) (l l' : bool) (w w' : W) (o : Obs) :
  pstep h p l w = Some (p', l', w', o) ->
  run h p l w
  = match run h p' l' w' with
    | None => None
    | Some out => Some (mkOutcome (returned out) (mutex out) (world out) (o :: trace out))
    end.
Proof.
  destruct p as [a | X e k]; simpl; [discriminate |].
  destruct (step h e l w) as [[[[x l1] w1] o1]|]; [|discriminate].
  intros [= <- <- <- <-]. reflexivity.
Qed.

(** Whatever the calls return, the rest of a cycle runs to its end: calls
    only, then the release of the mutex as its last event. *)
Lemma run_Critical (p : Prog (option error)) :
  Critical p ->
  forall w : W,
    exists out rest,
      run h p true w = Some out /\ mutex out = false
      /\ trace out = rest ++ [ObsUnlock] /\ calls isMutexEvent rest = 0.
Proof.
  induction 1 as [k Hk | X e k Hk IH]; intros w; simpl.
  - destruct (Hk tt) as [r ->]. simpl. eexists. exists [].
    split; [reflexivity |]. split; [reflexivity |]. split; reflexivity.
  - destruct (h X e w) as [x w1].
    destruct (IH x w1) as (out & rest & Hout & Hm & Ht & Hz).
    rewrite Hout. eexists. exists (observe e x :: rest).
    split; [reflexivity |]. cbn [mutex trace]. split; [exact Hm |].
    split; [now rewrite Ht |].
    destruct (observe_not_mutex e x) as (_ & _ & E).
    unfold calls in *. cbn [List.filter]. now rewrite E.
Qed.

(** [Send] running alone: one [Lock], the fetch and what follows it (calls
    only), one [Unlock]. *)
Lemma run_Send_one_section (w : W) :
  exists o out rest,
    run h listMailMessages true w = Some o
    /\ run h (Send Getenv) false w = Some out /\ mutex out = false
    /\ trace out = ObsLock :: trace o ++ rest ++ [ObsUnlock]
    /\ calls isMutexEvent (trace o ++ rest) = 0.
Proof.
  destruct (run_LockFree h _ LockFree_listMailMessages true w) as (o & Ho & _ & _).
  destruct (run_LockFree h _ LockFree_sendLocked true w) as (os & Hos & Hm & _).
  destruct (LockFree_trace h _ LockFree_sendLocked true w os Hos) as (_ & _ & Hz).
  assert (Hrest : exists rest, trace os = trace o ++ rest).
  { revert Hos. unfold sendLocked. rewrite run_bind, Ho.
    match goal with
    | |- context [run h ?q ?l ?w0] => destruct (run h q l w0) as [o2|]; [|discriminate]
    end.
    intros [= <-]. now exists (trace o2). }
  destruct Hrest as [rest Hrest].
  destruct os as [r m w' t]. cbn [returned mutex world trace] in *. subst m.
  exists o. eexists. exists rest. split; [exact Ho |].
  unfold Send. rewrite run_bind.
  change (run h (trigger Lock) false w) with (Some (mkOutcome tt true w [ObsLock])).
  cbn [returned mutex world trace].
  rewrite run_bind, Hos.
  cbn [returned mutex world trace].
  rewrite run_bind.
  change (run h (trigger Unlock) true w') with (Some (mkOutcome tt false w' [ObsUnlock])).
  cbn [returned mutex world trace run].
  split; [reflexivity |]. cbn [mutex trace]. split; [reflexivity |].
  subst t. split; [|exact Hz].
  rewrite app_nil_r, <- app_assoc. reflexivity.
Qed.

(** C3. Goroutines that call [Send] on the same service never overlap their
    cycles, and the cycle of a goroutine is the whole of its call.  In every
    configuration they can reach:
    - the history of events is a sequence of sections, each being the events
      of one goroutine from its [Lock] to its [Unlock];
    - every goroutine is at one of three stages: it has performed no event
      and the whole of [Send] is still to run; or it owns the mutex, its
      events are one [Lock] followed by calls only, and what is left of its
      call runs to its end with calls only and then one [Unlock], whatever
      the calls return; or it has returned, and its events are one [Lock],
      calls only, one [Unlock].  So all the calls of one [Send] (the fetch,
      the transport call, the commits) lie in one section of the history;
    - a goroutine that calls [Send] while the mutex is held cannot move (it
      blocks), and it takes the mutex as soon as it is free;
    - the mutex is locked exactly when a goroutine owns it.
    And [Send] running alone performs one [Lock], then the calls of the
    fetch and of what follows it, then one [Unlock], and ends with the mutex
    released. *)
Theorem C3_Send_cycles_never_overlap (n : nat) (w : W) (c : Config W) :
  reachable h (initial Getenv n w) c ->
  serialized (history c)
  /\ (forall i p, pool c !! i = Some p ->
        (p = Send Getenv /\ eventsOf i (history c) = [])
        \/ (ownerAfter (history c) = Some (Some i)
            /\ (exists body,
                  eventsOf i (history c) = ObsLock :: body
                  /\ calls isMutexEvent body = 0)
            /\ forall w', exists out rest,
                 run h p true w' = Some out /\ mutex out = false
                 /\ trace out = rest ++ [ObsUnlock]
                 /\ calls isMutexEvent rest = 0)
        \/ (exists r body,
              p = Ret r
              /\ eventsOf i (history c) = ObsLock :: body ++ [ObsUnlock]
              /\ calls isMutexEvent body = 0))
  /\ (forall i, pool c !! i = Some (Send Getenv) ->
        if locked c then forall c', ~ cstep h i c c'
        else exists c', cstep h i c c' /\ locked c' = true
                        /\ history c' = history c ++ [(i, ObsLock)])
  /\ (if locked c then
        exists j p,
          ownerAfter (history c) = Some (Some j)
          /\ pool c !! j = Some p
          /\ forall w', exists out,
               run h p true w' = Some out /\ mutex out = false
               /\ last (trace out) = Some ObsUnlock
      else ownerAfter (history c) = Some None)
  /\ (forall w', exists o out rest,
        run h listMailMessages true w' = Some o
        /\ run h (Send Getenv) false w' = Some out /\ mutex out = false
        /\ head (trace out) = Some ObsLock
        /\ last (trace out) = Some ObsUnlock
        /\ trace out = ObsLock :: trace o ++ rest ++ [ObsUnlock]
        /\ calls isMutexEvent (trace o ++ rest) = 0).
Proof.
  intros Hreach.
  destruct (invariant_reachable n w c Hreach) as (owner & Hown & Hl & Hin & Hall).
  split; [unfold serialized; rewrite Hown; now eexists |].
  split; [|split; [|split]].
  - intros i p Hp.
    destruct (Hall i p Hp)
      as [(-> & Hev & _) | [(Hcrit & -> & Hbody) | ((r & ->) & _ & body & Hev & Hz)]].
    + left. now split.
    + right; left. split; [exact Hown |]. split; [exact Hbody |].
      apply run_Critical, Hcrit.
    + right; right. exists r, body. split; [reflexivity |]. now split.
  - intros i Hi. destruct (locked c) eqn:Hlc.
    + intros c' Hstep. destruct Hstep as [c p p' l' w' o Hp Hps].
      rewrite Hi in Hp. injection Hp as <-.
      rewrite Hlc, pstep_Send_locked in Hps. discriminate.
    + destruct (pstep_Send_unlocked (shared c)) as (body & Hbody & _).
      eexists. split; [eapply cstep_event; [exact Hi | rewrite Hlc; exact Hbody] |].
      split; reflexivity.
  - rewrite Hl. destruct owner as [j|]; [|exact Hown].
    destruct (Hin j eq_refl) as [p Hp].
    exists j, p. split; [exact Hown |]. split; [exact Hp |].
    destruct (Hall j p Hp) as [(_ & _ & Hno) | [(Hcrit & _) | (_ & Hno & _)]];
      [now destruct Hno | | now destruct Hno].
    intros w'. destruct (run_Critical p Hcrit w') as (out & rest & Hout & Hm & Ht & _).
    exists out. split; [exact Hout |]. split; [exact Hm |].
    rewrite Ht. apply last_snoc.
  - intros w'.
    destruct (run_Send_one_section w') as (o & out & rest & Ho & Hout & Hm & Ht & Hz).
    exists o, out, rest. split; [exact Ho |]. split; [exact Hout |]. split; [exact Hm |].
    split; [now rewrite Ht |]. split; [|split; [exact Ht | exact Hz]].
    rewrite Ht.
    change (ObsLock :: trace o ++ rest ++ [ObsUnlock])
      with ((ObsLock :: trace o) ++ rest ++ [ObsUnlock]).
    rewrite !app_assoc. apply last_snoc.
Qed.

End Concurrency.

(** Two goroutines on the sample world: goroutine 1 takes the mutex, runs
    the generation procedure and reads the clock while goroutine 0 waits. *)
Lemma C3_witness :
  exists c,
    reachable sample.healthy (initial sample.Getenv 2 sample.worldTwo) c
    /\ history c = [(1, ObsLock); (1, ObsExec "EXEC dbo.pd_wiseSendEmail" [] None);
                    (1, ObsToday sample.day)]
    /\ locked c = true
    /\ pool c !! 0 = Some (Send sample.Getenv)
    /\ serialized (history c).
Proof.
  eexists. split.
  - eapply reachable_step;
      [eapply reachable_step;
         [eapply reachable_step;
            [apply reachable_start
            | eapply (cstep_event _ 1); [reflexivity | reflexivity]]
         | eapply (cstep_event _ 1); [reflexivity | reflexivity]]
      | eapply (cstep_event _ 1); [reflexivity | reflexivity]].
  - split; [reflexivity |]. split; [reflexivity |]. split; [reflexivity |].
    refine (proj1 (C3_Send_cycles_never_overlap sample.healthy sample.Getenv 2
                     sample.worldTwo _ _)).
    eapply reachable_step;
      [eapply reachable_step;
         [eapply reachable_step;
            [apply reachable_start
            | eapply (cstep_event _ 1); [reflexivity | reflexivity]]
         | eapply (cstep_event _ 1); [reflexivity | reflexivity]]
      | eapply (cstep_event _ 1); [reflexivity | reflexivity]].
Defined.

(* ===================================================================== *)
(** * Further properties of the package *)
(* ===================================================================== *)

(** ** The address parser: what it keeps *)

Lemma fieldsFrom_chars (f : ascii -> bool) (s : string) :
  forall cur : option string,
    concat (map chars (strings.fieldsFrom f s cur))
    = chars (default EmptyString cur) ++ List.filter (fun c => negb (f c)) (chars s).
Proof.
  induction s as [|c s IH]; intros cur; simpl.
  - destruct cur as [w|]; simpl; now rewrite ?app_nil_r.
  - destruct (f c); simpl.
    + destruct cur as [w|]; simpl; now rewrite IH.
    + destruct cur as [w|]; rewrite IH; simpl.
      * rewrite chars_append. simpl. now rewrite <- app_assoc.
      * reflexivity.
Qed.

(** Whatever the delimiter test, [FieldsFunc] loses no other character:
    the characters of the fields, put end to end, are the characters of the
    input that are not delimiters, in their order.  Nothing is trimmed: the
    spaces around an address stay in its field. *)
Theorem FieldsFunc_keeps_non_delimiters (f : ascii -> bool) (s : string) :
  concat (map chars (strings.FieldsFunc s f))
  = List.filter (fun c => negb (f c)) (chars s).
Proof. unfold strings.FieldsFunc. now rewrite fieldsFrom_chars. Qed.

Lemma splitOn_no_delimiter_id (d : ascii) (w : string) :
  d ∉ chars w -> splitOn d w = [w].
Proof.
  induction w as [|c w IH]; simpl; [reflexivity |].
  intros Hnot. rewrite not_elem_of_cons in Hnot. destruct Hnot as [Hne Hnot].
  rewrite decide_False by congruence. now rewrite IH.
Qed.

Lemma splitOn_append (d : ascii) (w : string) (t : string) :
  d ∉ chars w ->
  splitOn d (w +:+ String d t) = w :: splitOn d t.
Proof.
  induction w as [|c w IH]; intros Hnot.
  - rewrite append_nil_l. simpl. now rewrite decide_True.
  - simpl in Hnot. rewrite not_elem_of_cons in Hnot. destruct Hnot as [Hne Hnot].
    rewrite append_cons_l. simpl. rewrite decide_False by congruence.
    now rewrite IH.
Qed.

Lemma splitOn_joinWith (d : ascii) (ws : list string) :
  ws <> [] ->
  Forall (fun w => d ∉ chars w) ws ->
  splitOn d (joinWith d ws) = ws.
Proof.
  induction ws as [|w ws IH]; [congruence |].
  intros _ Hall. inversion Hall as [|? ? Hw Hws]; subst.
  destruct ws as [|w' ws].
  - simpl. now apply splitOn_no_delimiter_id.
  - change (joinWith d (w :: w' :: ws)) with (w +:+ String d (joinWith d (w' :: ws))).
    rewrite splitOn_append by exact Hw.
    now rewrite IH.
Qed.

(** Round trip: a list of recipients, none empty and none containing ';',
    joined with ';' and stored in the column, is read back as it was. *)
Theorem parseAddresses_joinWith (ws : list string) :
  Forall (fun w => w <> EmptyString /\ ";"%char ∉ chars w) ws ->
  parseAddresses (mkNullString (joinWith ";" ws) true) = ws.
Proof.
  intros Hall. unfold parseAddresses. simpl. rewrite FieldsFunc_splitOn.
  destruct ws as [|w ws]; [reflexivity |].
  rewrite splitOn_joinWith;
    [| discriminate | eapply Forall_impl; [exact Hall | intros x [_ Hx]; exact Hx]].
  induction Hall as [|x xs [Hx _] _ IH]; [reflexivity |].
  rewrite filter_cons_True by exact Hx. now rewrite IH.
Qed.

Lemma parseAddresses_joinWith_witness :
  parseAddresses (mkNullString (joinWith ";" ["a@x"; " b@x "; "c@x"]) true)
  = ["a@x"; " b@x "; "c@x"].
Proof.
  apply (parseAddresses_joinWith ["a@x"; " b@x "; "c@x"]).
  repeat constructor; try discriminate;
    (intros Hin; apply list_elem_of_In in Hin; simpl in Hin; intuition discriminate).
Defined.

(** ** The fetch: its failures *)

Lemma scanRows_error (names : list string) (rows : list (list sql.value)) :
  forall (acc : list Message) (err : error),
    scanRows names rows acc = inl err ->
    exists cols cause,
      cols ∈ rows /\ scanMessage names cols = inl cause
      /\ err = Errorf "failed to scan tb_getEmailWiseSend: " cause.
Proof.
  induction rows as [|cols rest IH]; intros acc err; simpl; [discriminate |].
  destruct (scanMessage names cols) as [cause|m] eqn:E.
  - intros [= <-]. exists cols, cause. split; [constructor | split; [exact E | reflexivity]].
  - intros Hrest. destruct (IH _ _ Hrest) as (cols' & cause & Hin & Hscan & ->).
    exists cols', cause. split; [now constructor | split; [exact Hscan | reflexivity]].
Qed.

Lemma scanRows_complete (names : list string) (rows : list (list sql.value)) :
  forall (acc ms : list Message),
    Forall2 (fun cols m => scanMessage names cols = inr m) rows ms ->
    scanRows names rows acc = inr (acc ++ ms).
Proof.
  induction rows as [|cols rest IH]; intros acc ms HF; inversion HF as [|? m ? ms' Hm Hrest]; subst.
  - simpl. now rewrite app_nil_r.
  - simpl. rewrite Hm. rewrite (IH _ _ Hrest). now rewrite <- app_assoc.
Qed.

(** When the generation procedure fails, nothing else is asked of the
    database: the fetch stops after that one call, [ListMessages] and [Send]
    both return an error that wraps the procedure's error under the text
    "failed to execute stored procedure pd_wiseSendEmail: ", and [Send]
    releases the mutex without any transport or commit call. *)
Theorem generation_failure_ends_the_cycle
    {W : Type} (h : Handler W) (Getenv : string -> string) (w w1 : W) (err : error) :
  h _ (ExecContext "EXEC dbo.pd_wiseSendEmail" []) w = (Some err, w1) ->
  exists failure,
    Unwrap failure = Some err
    /\ Error failure
       = "failed to execute stored procedure pd_wiseSendEmail: " +:+ Error err
    /\ run h ListMessages false w
       = Some (mkOutcome (inl failure) false w1
                 [ObsExec "EXEC dbo.pd_wiseSendEmail" [] (Some err)])
    /\ run h (Send Getenv) false w
       = Some (mkOutcome (Some failure) false w1
                 [ObsLock; ObsExec "EXEC dbo.pd_wiseSendEmail" [] (Some err); ObsUnlock]).
Proof.
  intros Hexec.
  exists (Errorf "failed to execute stored procedure pd_wiseSendEmail: " err).
  split; [reflexivity |]. split; [reflexivity |].
  destruct (run_ListMessages h w) as (o & HL & Ho).
  destruct (fetch_cases h false w) as (o' & Ho' & Hm & Hcase).
  rewrite Ho in Ho'. injection Ho' as <-.
  rewrite Hexec in Hcase. destruct Hcase as (Hr & Hw & Ht).
  rewrite (run_Send h Getenv w o Ho), HL, Hr.
  destruct o as [r m w' t]. cbn [returned mutex world trace] in *. subst.
  split; reflexivity.
Qed.

Lemma generation_failure_witness :
  exists failure,
    Unwrap failure = Some (errorString "mssql: login failed")
    /\ Error failure
       = "failed to execute stored procedure pd_wiseSendEmail: "
         +:+ Error (errorString "mssql: login failed")
    /\ run cases.genDown ListMessages false sample.worldTwo
       = Some (mkOutcome (inl failure) false sample.worldTwo
                 [ObsExec "EXEC dbo.pd_wiseSendEmail" []
                    (Some (errorString "mssql: login failed"))])
    /\ run cases.genDown (Send sample.Getenv) false sample.worldTwo
       = Some (mkOutcome (Some failure) false sample.worldTwo
                 [ObsLock;
                  ObsExec "EXEC dbo.pd_wiseSendEmail" []
                    (Some (errorString "mssql: login failed"));
                  ObsUnlock]).
Proof.
  apply (generation_failure_ends_the_cycle cases.genDown sample.Getenv
           sample.worldTwo sample.worldTwo (errorString "mssql: login failed")).
  reflexivity.
Defined.

(** A batch is returned only when every row that the cursor delivered was
    scanned and the cursor ended without error: the batch then holds one
    message per delivered row, in the order of delivery.  A row that cannot
    be scanned, or an error of the iteration, makes the whole fetch fail: no
    partial batch is ever returned. *)
Theorem fetch_returns_every_delivered_row_or_none
    {W : Type} (h : Handler W) (l : bool) (w : W) :
  exists o,
    run h listMailMessages l w = Some o
    /\ forall ms,
         returned o = inr ms
         <-> exists w1 today w2 rows,
               h _ (ExecContext "EXEC dbo.pd_wiseSendEmail" []) w = (None, w1)
               /\ h _ Today w1 = (today, w2)
               /\ h _ (QueryContext (pendingQuery today)) w2 = (inr rows, world o)
               /\ sql.iterErr rows = None
               /\ length ms = length (sql.data rows)
               /\ Forall2 (fun cols m => scanMessage (sql.columns rows) cols = inr m) (sql.data rows) ms.
Proof.
  destruct (fetch_cases h l w) as (o & Ho & _ & Hcase).
  exists o. split; [exact Ho |]. intros ms. split.
  - intros Hr.
    destruct (fetch_success h l w o ms Ho Hr)
      as (w1 & today & w2 & rows & H1 & H2 & H3 & H4 & HF & _).
    exists w1, today, w2, rows. repeat split; try assumption.
    symmetry. exact (Forall2_length _ _ _ HF).
  - intros (w1 & today & w2 & rows & H1 & H2 & H3 & H4 & _ & HF).
    rewrite H1, H2, H3 in Hcase. destruct Hcase as (_ & _ & Hr).
    rewrite Hr, (scanRows_complete _ _ [] ms HF), H4. reflexivity.
Qed.

(** What [Scan] converts.  A cursor that delivers text in the integer
    column, and an integer and a time in columns read into strings, is
    scanned: the text is parsed, the integer is written in decimal and the
    time in the layout RFC3339Nano.  Text that is not a number in the
    integer column is an error that names the column. *)
Example scan_converts_between_types :
  scanMessage pendingColumns
    [ sql.VStr "7"; sql.VInt 42; sql.VStr "R1";
      sql.VTime (mkTime 1793318400 0 "UTC" 0);
      sql.VStr "a@x"; sql.VNull; sql.VStr "Hello"; sql.VStr "<p>Hi</p>";
      sql.VStr "ADD"; sql.VNull; sql.VInt (-3) ]
  = inr {| ID := 7; TxnNo := "42"; RuleID := "R1"; Time := "2026-10-30T00:00:00Z";
           Subject := "Hello"; Content := "<p>Hi</p>"; Status := "ADD";
           Comment := "-3"; ToAddresses := ["a@x"]; BCCAddresses := [];
           SentAt := None |}.
Proof. vm_compute. reflexivity. Qed.

Example scan_error_names_the_column :
  exists err,
    scanMessage pendingColumns
      [ sql.VStr "x7"; sql.VStr "TX-7"; sql.VStr "R1"; sql.VStr "2026-10-30";
        sql.VStr "a@x"; sql.VNull; sql.VStr "Hello"; sql.VStr "<p>Hi</p>";
        sql.VStr "ADD"; sql.VNull; sql.VStr "first" ]
    = inl err
    /\ Error err
       = "sql: Scan error on column index 0, name " +:+ dquote +:+ "TWID" +:+ dquote
           +:+ ": converting driver.Value type string (" +:+ dquote +:+ "x7" +:+ dquote
           +:+ ") to a int64: invalid syntax".
Proof. eexists. split; vm_compute; reflexivity. Qed.

(** Every error of the fetch names the stage that failed and wraps its
    cause: its text is one of four fixed prefixes followed by the text of
    the cause, which [errors.Unwrap] gives back. *)
Theorem fetch_error_names_stage_and_wraps_cause
    {W : Type} (h : Handler W) (l : bool) (w : W)
    (o : Outcome (result (list Message)) W) (err : error) :
  run h listMailMessages l w = Some o ->
  returned o = inl err ->
  exists stage cause,
    Unwrap err = Some cause
    /\ Error err = stage +:+ Error cause
    /\ stage ∈ [ "failed to execute stored procedure pd_wiseSendEmail: ";
                 "failed to query tb_getEmailWiseSend: ";
                 "failed to scan tb_getEmailWiseSend: ";
                 "failed to iterate tb_getEmailWiseSend: " ].
Proof.
  intros Ho Hr.
  destruct (fetch_cases h l w) as (o' & Ho' & _ & Hcase).
  rewrite Ho in Ho'. injection Ho' as <-.
  destruct (h _ (ExecContext "EXEC dbo.pd_wiseSendEmail" []) w) as [[e1|] w1].
  - destruct Hcase as (Hr' & _). rewrite Hr' in Hr. injection Hr as <-.
    do 2 eexists. split; [reflexivity |]. split; [reflexivity |]. set_solver.
  - destruct (h _ Today w1) as [today w2].
    destruct (h _ (QueryContext (pendingQuery today)) w2) as [[e2|rows] w3];
      destruct Hcase as (_ & _ & Hr'); rewrite Hr' in Hr.
    + injection Hr as <-.
      do 2 eexists. split; [reflexivity |]. split; [reflexivity |]. set_solver.
    + destruct (scanRows (sql.columns rows) (sql.data rows) []) as [e3|ms] eqn:Hscan.
      * injection Hr as <-.
        destruct (scanRows_error _ _ _ _ Hscan) as (cols & cause & _ & _ & ->).
        do 2 eexists. split; [reflexivity |]. split; [reflexivity |]. set_solver.
      * destruct (sql.iterErr rows) as [e4|]; [|discriminate].
        injection Hr as <-.
        do 2 eexists. split; [reflexivity |]. split; [reflexivity |]. set_solver.
Qed.

Lemma fetch_error_witness :
  exists o err,
    run sample.healthy listMailMessages false cases.worldPoisoned = Some o
    /\ returned o = inl err
    /\ exists stage cause,
        Unwrap err = Some cause
        /\ Error err = stage +:+ Error cause
        /\ stage ∈ [ "failed to execute stored procedure pd_wiseSendEmail: ";
                     "failed to query tb_getEmailWiseSend: ";
                     "failed to scan tb_getEmailWiseSend: ";
                     "failed to iterate tb_getEmailWiseSend: " ].
Proof.
  eexists. eexists.
  split; [vm_compute; reflexivity |].
  split; [reflexivity |].
  eapply (fetch_error_names_stage_and_wraps_cause sample.healthy false cases.worldPoisoned);
    [vm_compute; reflexivity | reflexivity].
Defined.

(** ** [Send]: every cycle, case by case *)

Section SendCases.

Context {W : Type} (h : Handler W).
Variable Getenv : string -> string.

(** The four ways a cycle can go: the fetch fails; the batch is empty; the
    transport refuses the batch; the transport accepts it and the commit
    loop runs. *)
Lemma Send_cases (w : W) :
  exists o,
    run h listMailMessages false w = Some o
    /\ ((exists err,
            returned o = inl err
            /\ run h (Send Getenv) false w
               = Some (mkOutcome (Some err) false (world o)
                         (ObsLock :: trace o ++ [ObsUnlock])))
        \/ (returned o = inr []
            /\ run h (Send Getenv) false w
               = Some (mkOutcome None false (world o) (ObsLock :: trace o ++ [ObsUnlock])))
        \/ (exists batch err w2,
              returned o = inr batch /\ batch <> []
              /\ h _ (DialAndSend (dialer Getenv) (map (buildMessage Getenv) batch)) (world o)
                 = (Some err, w2)
              /\ run h (Send Getenv) false w
                 = Some (mkOutcome (Some err) false w2
                           (ObsLock :: trace o
                            ++ [ObsDialAndSend (dialer Getenv)
                                  (map (buildMessage Getenv) batch) (Some err);
                                ObsUnlock])))
        \/ (exists batch w2 oc,
              returned o = inr batch /\ batch <> []
              /\ h _ (DialAndSend (dialer Getenv) (map (buildMessage Getenv) batch)) (world o)
                 = (None, w2)
              /\ run h (commitMessages batch) true w2 = Some oc
              /\ ((returned oc = None
                   /\ trace oc = map (fun m => commitCall m None) batch)
                  \/ (exists pre m post err,
                        batch = pre ++ m :: post
                        /\ returned oc = Some err
                        /\ trace oc = map (fun m => commitCall m None) pre
                                      ++ [commitCall m (Some err)]))
              /\ run h (Send Getenv) false w
                 = Some (mkOutcome (returned oc) false (world oc)
                           (ObsLock :: trace o
                            ++ ObsDialAndSend (dialer Getenv)
                                 (map (buildMessage Getenv) batch) None
                               :: trace oc ++ [ObsUnlock])))).
Proof.
  destruct (run_LockFree h _ LockFree_listMailMessages false w) as (o & Ho & _ & _).
  exists o. split; [exact Ho |].
  rewrite (run_Send h Getenv w o Ho).
  destruct (returned o) as [err|batch] eqn:Hr.
  - left. exists err. split; reflexivity.
  - right. destruct (decide (batch = [])) as [->|Hne].
    + left. split; [reflexivity |]. rewrite run_dispatch_nil. cbn. reflexivity.
    + right. rewrite run_dispatch by exact Hne. rewrite buildMessages_map.
      destruct (h _ (DialAndSend (dialer Getenv) (map (buildMessage Getenv) batch)) (world o))
        as [[err|] w2] eqn:Hsend.
      * left. exists batch, err, w2. repeat split; assumption.
      * right. destruct (run_commitMessages h batch true w2) as (oc & Hoc & _ & Hcases).
        exists batch, w2, oc. rewrite Hoc. cbn [returned mutex world trace].
        split; [reflexivity |]. split; [exact Hne |]. split; [exact Hsend |].
        split; [reflexivity |]. split; [|reflexivity].
        destruct Hcases as [(Hret & Ht & _) | (pre & m & post & err & Hs & Hret & Ht & _)].
        -- left. now split.
        -- right. exists pre, m, post, err. repeat split; assumption.
Qed.

End SendCases.

Section SendProperties.

Context {W : Type} (h : Handler W).
Variable Getenv : string -> string.

Lemma filter_commit_fetch (l : bool) (w : W) (o : Outcome (result (list Message)) W) :
  run h listMailMessages l w = Some o ->
  List.filter isCommitCall (trace o) = []
  /\ transportBatches (trace o) = [].
Proof.
  intros Ho. destruct (fetch_cases h l w) as (o' & Ho' & _ & Hcase).
  rewrite Ho in Ho'. injection Ho' as <-.
  destruct (h _ (ExecContext "EXEC dbo.pd_wiseSendEmail" []) w) as [[e1|] w1].
  - destruct Hcase as (_ & _ & ->). split; reflexivity.
  - destruct (h _ Today w1) as [today w2].
    destruct (h _ (QueryContext (pendingQuery today)) w2) as [r w3].
    destruct Hcase as (_ & -> & _). split; reflexivity.
Qed.

Lemma filter_commit_calls (ms : list Message) :
  List.filter isCommitCall (map (fun m => commitCall m None) ms)
  = map (fun m => commitCall m None) ms.
Proof. induction ms as [|m ms IH]; [reflexivity |]. simpl. now rewrite IH. Qed.

(** When the fetch fails, whatever the stage, [Send] returns the error of
    the fetch as it is, asks nothing of the transport, commits nothing and
    releases the mutex. *)
Theorem Send_returns_the_fetch_error
    (w : W) (o : Outcome (result (list Message)) W) (err : error) :
  run h listMailMessages false w = Some o ->
  returned o = inl err ->
  run h (Send Getenv) false w
  = Some (mkOutcome (Some err) false (world o) (ObsLock :: trace o ++ [ObsUnlock]))
  /\ calls isTransportCall (ObsLock :: trace o ++ [ObsUnlock]) = 0
  /\ calls isCommitCall (ObsLock :: trace o ++ [ObsUnlock]) = 0.
Proof.
  intros Ho Hr. rewrite (run_Send h Getenv w o Ho), Hr.
  split; [reflexivity |].
  destruct (fetch_calls h false w o Ho) as [Ht Hc].
  change (ObsLock :: trace o ++ [ObsUnlock]) with ([ObsLock] ++ trace o ++ [ObsUnlock]).
  rewrite !calls_app, Ht, Hc. split; reflexivity.
Qed.

(** No acknowledgment without delivery.  In every cycle, whatever the
    database and the relay answer: the transport is called at most once;
    there are at most as many commit calls as fetched messages; and if
    there is any commit call, the transport call for the whole fetched
    batch came before every one of them and returned no error. *)
Theorem commits_only_after_a_successful_send (w : W) :
  exists o out,
    run h listMailMessages false w = Some o
    /\ run h (Send Getenv) false w = Some out
    /\ calls isTransportCall (trace out) <= 1
    /\ calls isCommitCall (trace out) <= length (batchOf (returned o))
    /\ (calls isCommitCall (trace out) = 0
        \/ exists pre post,
             trace out
             = pre ++ ObsDialAndSend (dialer Getenv)
                        (map (buildMessage Getenv) (batchOf (returned o))) None :: post
             /\ calls isCommitCall pre = 0
             /\ calls isTransportCall post = 0).
Proof.
  destruct (Send_cases h Getenv w) as (o & Ho & Hcases).
  destruct (fetch_calls h false w o Ho) as [Ht Hc].
  exists o.
  destruct Hcases as [(err & Hr & Hs) | [(Hr & Hs) | [(batch & err & w2 & Hr & Hne & Hd & Hs)
                     | (batch & w2 & oc & Hr & Hne & Hd & Hoc & Hcommit & Hs)]]];
    eexists; (split; [exact Ho |]); (split; [exact Hs |]); cbn [trace]; rewrite Hr; cbn [batchOf].
  - change (ObsLock :: trace o ++ [ObsUnlock]) with ([ObsLock] ++ trace o ++ [ObsUnlock]).
    rewrite !calls_app, Ht, Hc. cbn. split; [lia |]. split; [lia |]. left. reflexivity.
  - change (ObsLock :: trace o ++ [ObsUnlock]) with ([ObsLock] ++ trace o ++ [ObsUnlock]).
    rewrite !calls_app, Ht, Hc. cbn. split; [lia |]. split; [lia |]. left. reflexivity.
  - match goal with
    | |- context [ObsLock :: trace o ++ ?t] =>
        change (ObsLock :: trace o ++ t) with ([ObsLock] ++ trace o ++ t)
    end.
    rewrite !calls_app, Ht, Hc. cbn. split; [lia |]. split; [lia |]. left. reflexivity.
  - assert (Hoc_commit : calls isCommitCall (trace oc) <= length batch
                         /\ calls isTransportCall (trace oc) = 0).
    { destruct Hcommit as [(_ & ->) | (pre & m & post & err & -> & _ & ->)].
      - destruct (calls_commitCalls batch) as [-> ->]. split; lia.
      - rewrite !calls_app. destruct (calls_commitCalls pre) as [-> ->].
        change (calls isCommitCall [commitCall m (Some err)]) with 1.
        change (calls isTransportCall [commitCall m (Some err)]) with 0.
        rewrite length_app. cbn [length]. split; lia. }
    destruct Hoc_commit as [Hle Hzero].
    match goal with
    | |- context [ObsLock :: trace o ++ ?d :: trace oc ++ ?u] =>
        change (ObsLock :: trace o ++ d :: trace oc ++ u)
          with ([ObsLock] ++ trace o ++ [d] ++ trace oc ++ u)
    end.
    rewrite !calls_app, Ht, Hc, Hzero. cbn.
    split; [lia |]. split; [lia |].
    right. exists (ObsLock :: trace o), (trace oc ++ [ObsUnlock]).
    split; [reflexivity |].
    change (ObsLock :: trace o) with ([ObsLock] ++ trace o).
    rewrite !calls_app, Hc, Hzero. split; reflexivity.
Qed.

Lemma daysRead_app (t1 t2 : list Obs) : daysRead (t1 ++ t2) = daysRead t1 ++ daysRead t2.
Proof. unfold daysRead. now rewrite flat_map_app. Qed.

Lemma knownStatement_mono (days days' : list string) (batch : list Message) (o : Obs) :
  days ⊆ days' -> knownStatement days batch o -> knownStatement days' batch o.
Proof.
  intros Hsub. destruct o; cbn; try tauto.
  intros (today & Hin & ->). exists today. split; [now apply Hsub | reflexivity].
Qed.

Lemma knownStatement_fetch (l : bool) (w : W) (o : Outcome (result (list Message)) W)
    (batch : list Message) :
  run h listMailMessages l w = Some o ->
  Forall (knownStatement (daysRead (trace o)) batch) (trace o).
Proof.
  intros Ho. destruct (fetch_cases h l w) as (o' & Ho' & _ & Hcase).
  rewrite Ho in Ho'. injection Ho' as <-.
  destruct (h _ (ExecContext "EXEC dbo.pd_wiseSendEmail" []) w) as [[e1|] w1].
  - destruct Hcase as (_ & _ & ->). constructor; [|constructor].
    left. now split.
  - destruct (h _ Today w1) as [today w2].
    destruct (h _ (QueryContext (pendingQuery today)) w2) as [r w3].
    destruct Hcase as (_ & -> & _).
    constructor; [left; now split |].
    constructor; [exact I |].
    constructor; [|constructor].
    exists today. split; [cbn; set_solver | reflexivity].
Qed.

Lemma knownStatement_commits (days : list string) (batch ms : list Message)
    (out : Message -> option error) :
  ms ⊆ batch ->
  Forall (knownStatement days batch) (map (fun m => commitCall m (out m)) ms).
Proof.
  intros Hsub. apply Forall_fmap, Forall_forall. intros m Hm.
  right. split; [reflexivity |]. exists m. split; [now apply Hsub | reflexivity].
Qed.

(** Every statement that a cycle sends to the database is one of three: the
    generation procedure without arguments; the SELECT that [pendingQuery]
    builds, whose only varying part is the day, a day that the clock
    returned in this cycle; the acknowledgment procedure whose only
    argument, named txnno, is the transaction number of a fetched message.
    No statement text is ever built from stored data. *)
Theorem Send_sends_three_fixed_statements (w : W) :
  exists o out,
    run h listMailMessages false w = Some o
    /\ run h (Send Getenv) false w = Some out
    /\ Forall (knownStatement (daysRead (trace out)) (batchOf (returned o))) (trace out).
Proof.
  destruct (Send_cases h Getenv w) as (o & Ho & Hcases).
  pose proof (knownStatement_fetch false w o (batchOf (returned o)) Ho) as Hfetch.
  exists o.
  assert (Hgrow : forall rest,
             Forall (knownStatement (daysRead (ObsLock :: trace o ++ rest))
                       (batchOf (returned o))) (trace o)).
  { intros rest. eapply Forall_impl; [exact Hfetch |].
    intros ob. apply knownStatement_mono.
    change (ObsLock :: trace o ++ rest) with ([ObsLock] ++ trace o ++ rest).
    rewrite !daysRead_app. intros d Hd. rewrite !elem_of_app. auto. }
  destruct Hcases as [(err & Hr & Hs) | [(Hr & Hs) | [(batch & err & w2 & Hr & Hne & Hd & Hs)
                     | (batch & w2 & oc & Hr & Hne & Hd & Hoc & Hcommit & Hs)]]];
    eexists; (split; [exact Ho |]); (split; [exact Hs |]); cbn [trace].
  - constructor; [exact I |]. apply Forall_app. split; [apply Hgrow | repeat constructor].
  - constructor; [exact I |]. apply Forall_app. split; [apply Hgrow | repeat constructor].
  - constructor; [exact I |]. apply Forall_app. split; [apply Hgrow | repeat constructor].
  - constructor; [exact I |]. apply Forall_app. split; [apply Hgrow |].
    constructor; [exact I |]. apply Forall_app. split; [|repeat constructor].
    rewrite Hr. cbn [batchOf].
    destruct Hcommit as [(_ & ->) | (pre & m & post & err & -> & _ & ->)].
    + apply (knownStatement_commits _ batch batch (fun _ => None)). set_solver.
    + apply Forall_app. split.
      * apply (knownStatement_commits _ _ pre (fun _ => None)). set_solver.
      * constructor; [|constructor]. right. split; [reflexivity |].
        exists m. split; [set_solver | reflexivity].
Qed.

Lemma filter_commit_cycle (t1 t2 t3 : list Obs) :
  List.filter isCommitCall t1 = [] ->
  List.filter isCommitCall t3 = [] ->
  List.filter isCommitCall (ObsLock :: t1 ++ t3 ++ t2 ++ [ObsUnlock])
  = List.filter isCommitCall t2.
Proof.
  intros H1 H3.
  change (ObsLock :: t1 ++ t3 ++ t2 ++ [ObsUnlock])
    with ([ObsLock] ++ t1 ++ t3 ++ t2 ++ [ObsUnlock]).
  rewrite !List.filter_app, H1, H3. cbn. now rewrite app_nil_r.
Qed.

(** [Send] returns nil exactly when the fetch gave a batch and every
    message of it was acknowledged by a commit call that succeeded, in fetch
    order, after the transport accepted the batch (nothing to do for an
    empty batch).  So a nil result never hides an unsent or unacknowledged
    message, and any failure is reported. *)
Theorem Send_returns_nil_iff_all_acknowledged (w : W) :
  exists o out,
    run h listMailMessages false w = Some o
    /\ run h (Send Getenv) false w = Some out
    /\ (returned out = None
        <-> exists batch,
              returned o = inr batch
              /\ List.filter isCommitCall (trace out)
                 = map (fun m => commitCall m None) batch
              /\ (batch = []
                  \/ ObsDialAndSend (dialer Getenv) (map (buildMessage Getenv) batch) None
                     ∈ trace out)).
Proof.
  destruct (Send_cases h Getenv w) as (o & Ho & Hcases).
  destruct (filter_commit_fetch false w o Ho) as [Hfc _].
  exists o.
  destruct Hcases as [(err & Hr & Hs) | [(Hr & Hs) | [(batch & err & w2 & Hr & Hne & Hd & Hs)
                     | (batch & w2 & oc & Hr & Hne & Hd & Hoc & Hcommit & Hs)]]];
    eexists; (split; [exact Ho |]); (split; [exact Hs |]); cbn [returned trace].
  - split; [discriminate |]. intros (batch & Hb & _). congruence.
  - split; [|reflexivity]. intros _. exists []. split; [exact Hr |].
    split; [|now left].
    change (ObsLock :: trace o ++ [ObsUnlock])
      with (ObsLock :: trace o ++ [] ++ [] ++ [ObsUnlock]).
    rewrite filter_commit_cycle by (exact Hfc || reflexivity).
    reflexivity.
  - split; [discriminate |]. intros (batch' & Hb & Hf & _).
    rewrite Hr in Hb. injection Hb as <-.
    change (ObsLock :: trace o
            ++ [ObsDialAndSend (dialer Getenv) (map (buildMessage Getenv) batch) (Some err);
                ObsUnlock])
      with (ObsLock :: trace o
            ++ [ObsDialAndSend (dialer Getenv) (map (buildMessage Getenv) batch) (Some err)]
            ++ [] ++ [ObsUnlock]) in Hf.
    rewrite filter_commit_cycle in Hf by (exact Hfc || reflexivity).
    destruct batch; [congruence | discriminate].
  - change (ObsLock :: trace o
            ++ ObsDialAndSend (dialer Getenv) (map (buildMessage Getenv) batch) None
               :: trace oc ++ [ObsUnlock])
      with (ObsLock :: trace o
            ++ [ObsDialAndSend (dialer Getenv) (map (buildMessage Getenv) batch) None]
            ++ trace oc ++ [ObsUnlock]).
    rewrite filter_commit_cycle by (exact Hfc || reflexivity).
    destruct Hcommit as [(Hret & Ht) | (pre & m & post & err & Hsplit & Hret & Ht)];
      rewrite Hret, Ht.
    + split; [|reflexivity]. intros _. exists batch. split; [exact Hr |].
      split; [apply filter_commit_calls |]. right.
      apply elem_of_cons. right. apply elem_of_app. right. apply elem_of_cons. now left.
    + split; [discriminate |]. intros (batch' & Hb & Hf & _).
      rewrite Hr in Hb. injection Hb as <-. exfalso.
      rewrite List.filter_app, filter_commit_calls in Hf.
      change (List.filter isCommitCall [commitCall m (Some err)])
        with [commitCall m (Some err)] in Hf.
      rewrite Hsplit, map_app in Hf. apply app_inv_head in Hf. discriminate.
Qed.

End SendProperties.

Lemma Send_fetch_error_witness :
  exists o err,
    run sample.healthy listMailMessages false cases.worldPoisoned = Some o
    /\ returned o = inl err
    /\ run sample.healthy (Send sample.Getenv) false cases.worldPoisoned
       = Some (mkOutcome (Some err) false (world o) (ObsLock :: trace o ++ [ObsUnlock]))
    /\ calls isTransportCall (ObsLock :: trace o ++ [ObsUnlock]) = 0
    /\ calls isCommitCall (ObsLock :: trace o ++ [ObsUnlock]) = 0.
Proof.
  eexists. eexists.
  split; [vm_compute; reflexivity |].
  split; [reflexivity |].
  apply (Send_returns_the_fetch_error sample.healthy sample.Getenv cases.worldPoisoned);
    [vm_compute; reflexivity | reflexivity].
Defined.

(** ** The fetch and the cycle on a database server *)

Section OnServer.

Variable gen : list storage.Row -> result (list storage.Row).
Variable upd : string -> list storage.Row -> result (list storage.Row).
Variable relay : mail.Dialer -> list mail.Message -> option error.

(** What the fetch computes from the table. *)
Lemma fetch_on_server_result (l : bool) (w : World)
    (o : Outcome (result (list Message)) World) :
  run (server gen upd relay) listMailMessages l w = Some o ->
  match gen (table w) with
  | inl err =>
      returned o = inl (Errorf "failed to execute stored procedure pd_wiseSendEmail: " err)
      /\ world o = w
  | inr tb =>
      returned o
      = scanRows pendingColumns
          (map rowValues
             (take 100 (merge_sort storage.byTWID (filter (selected (clock w)) tb)))) []
      /\ world o = mkWorld tb (clock w) (outbox w)
  end.
Proof.
  intros Ho. destruct (fetch_cases (server gen upd relay) l w) as (o' & Ho' & _ & Hcase).
  rewrite Ho in Ho'. injection Ho' as <-.
  change (server gen upd relay _ (ExecContext "EXEC dbo.pd_wiseSendEmail" []) w)
    with (match gen (table w) with
          | inl err => (Some err, w)
          | inr tb => (None, mkWorld tb (clock w) (outbox w))
          end) in Hcase.
  destruct (gen (table w)) as [err|tb].
  - destruct Hcase as (Hr & Hw & _). now split.
  - cbn [server clock table] in Hcase.
    rewrite select_pendingQuery in Hcase.
    destruct Hcase as (Hw & _ & Hr). cbn [sql.columns sql.data sql.iterErr] in Hr.
    change (storage.columnNames (pendingQuery (clock w))) with pendingColumns in Hr.
    split; [|exact Hw].
    rewrite Hr. destruct (scanRows _ _ []); reflexivity.
Qed.

Lemma scannable_scan (names : list string) (r : storage.Row) :
  scannable r <-> exists m, scanMessage names (rowValues r) = inr m.
Proof.
  split.
  - intros (H1 & H2 & H3 & H4 & H5 & H6 & H7).
    unfold scanMessage, rowValues.
    destruct (storage.Txnno r); [|congruence].
    destruct (storage.Ruleid r); [|congruence].
    destruct (storage.txtdate r); [|congruence].
    destruct (storage.subjects r); [|congruence].
    destruct (storage.contents r); [|congruence].
    destruct (storage.rectype r); [|congruence].
    destruct (storage.comments r); [|congruence].
    destruct (storage.toaddress r), (storage.bccaddress r), (storage.senddatetime r);
      simpl; eexists; reflexivity.
  - intros [m Hm]. apply scanMessage_rowValues in Hm.
    destruct Hm as (_ & H1 & H2 & H3 & H4 & H5 & H6 & H7 & _).
    unfold scannable. rewrite H1, H2, H3, H4, H5, H6, H7. repeat split; discriminate.
Qed.

Lemma scanRows_rowValues (names : list string) (rs : list storage.Row) :
  (exists ms, scanRows names (map rowValues rs) [] = inr ms) <-> Forall scannable rs.
Proof.
  split.
  - intros [ms Hms]. destruct (scanRows_Forall2 _ _ _ _ Hms) as (ms' & _ & HF).
    apply Forall2_fmap_l in HF. clear Hms.
    induction HF as [|r m rs' ms'' Hrm _ IH]; constructor; [|exact IH].
    apply (scannable_scan names). now exists m.
  - intros Hall.
    assert (Hex : exists ms,
               Forall2 (fun cols m => scanMessage names cols = inr m) (map rowValues rs) ms).
    { induction Hall as [|r rs' Hr _ [ms IH]]; [exists []; constructor |].
      apply (scannable_scan names) in Hr as [m Hm]. exists (m :: ms). now constructor. }
    destruct Hex as [ms HF]. exists ms.
    now rewrite (scanRows_complete _ _ [] ms HF).
Qed.

(** One row is enough to stop the fetch.  When the rows flagged ADD for the
    day are at most a hundred, the fetch returns a batch exactly when each
    of them has a value in every column read into a string (Txnno, Ruleid,
    txtdate, subjects, contents, rectype, comments); a NULL in one such
    column of one such row makes the whole fetch an error.  NULL is accepted
    in toaddress, bccaddress and senddatetime only. *)
Theorem fetch_succeeds_iff_selected_rows_scannable (w : World) (tb : list storage.Row) :
  gen (table w) = inr tb ->
  length (filter (selected (clock w)) tb) <= 100 ->
  exists o,
    run (server gen upd relay) listMailMessages false w = Some o
    /\ ((exists ms, returned o = inr ms)
        <-> Forall (fun r => selected (clock w) r -> scannable r) tb).
Proof.
  intros Hgen Hlen.
  destruct (run_LockFree (server gen upd relay) _ LockFree_listMailMessages false w)
    as (o & Ho & _ & _).
  exists o. split; [exact Ho |].
  pose proof (fetch_on_server_result false w o Ho) as Hres.
  rewrite Hgen in Hres. destruct Hres as [Hr _].
  set (sorted := merge_sort storage.byTWID (filter (selected (clock w)) tb)) in *.
  assert (Hperm : sorted ≡ₚ filter (selected (clock w)) tb)
    by apply merge_sort_Permutation.
  rewrite take_ge in Hr by (rewrite Hperm; exact Hlen).
  rewrite Hr, scanRows_rowValues, Hperm.
  rewrite !Forall_forall. split.
  - intros Hall r Hin Hsel. apply Hall, list_elem_of_filter. now split.
  - intros Hall r Hin. apply list_elem_of_filter in Hin as [Hsel Hin]. now apply Hall.
Qed.

(** Every fetched message carries the day of the clock as its date. *)
Lemma fetched_on_the_day (l : bool) (w : World)
    (o : Outcome (result (list Message)) World) (ms : list Message) :
  run (server gen upd relay) listMailMessages l w = Some o ->
  returned o = inr ms ->
  Forall (fun m => Time m = clock w) ms.
Proof.
  intros Ho Hr.
  destruct (fetch_on_server gen upd relay l w o ms Ho Hr)
    as (tb & rows & _ & _ & _ & HF & _ & _ & Hsel & _).
  apply Forall_lookup. intros i m Hm.
  destruct (Forall2_lookup_r _ _ _ _ _ HF Hm) as (r & Hri & Hread).
  destruct (proj1 (Forall_lookup _ _) Hsel i r Hri) as (_ & _ & Hday).
  destruct Hread as (_ & _ & _ & Hdate & _).
  congruence.
Qed.

(** A refused batch is fetched again, on the same day only.  When the relay
    refuses the batch, [Send] returns its error and leaves the table as the
    generation procedure left it.  The next fetch finds that table with the
    clock at some day [day']: if it is still the day of the refused cycle
    and the generation procedure has nothing to add when it is run again,
    the fetch returns the very same batch; if the day has changed, the
    fetch returns none of the refused messages. *)
Theorem refused_batch_is_fetched_again_that_day_only
    (Getenv : string -> string) (w : World)
    (o : Outcome (result (list Message)) World) (batch : list Message) (err : error) :
  run (server gen upd relay) listMailMessages false w = Some o ->
  returned o = inr batch ->
  batch <> [] ->
  relay (dialer Getenv) (map (buildMessage Getenv) batch) = Some err ->
  exists out,
    run (server gen upd relay) (Send Getenv) false w = Some out
    /\ returned out = Some err
    /\ world out = world o
    /\ forall day' : string,
         exists o2,
           run (server gen upd relay) listMailMessages false
             (mkWorld (table (world out)) day' (outbox (world out))) = Some o2
           /\ (day' = clock w ->
               gen (table (world out)) = inr (table (world out)) ->
               returned o2 = inr batch /\ world o2 = world out)
           /\ (day' <> clock w ->
               forall batch2, returned o2 = inr batch2 ->
               forall m, m ∈ batch -> m ∉ batch2).
Proof.
  intros Ho Hr Hne Hrelay.
  rewrite (run_Send _ Getenv w o Ho), Hr, run_dispatch by exact Hne.
  rewrite buildMessages_map.
  change (server gen upd relay _
            (DialAndSend (dialer Getenv) (map (buildMessage Getenv) batch)) (world o))
    with (match relay (dialer Getenv) (map (buildMessage Getenv) batch) with
          | Some e => (Some e, world o)
          | None => (None, mkWorld (table (world o)) (clock (world o))
                             (outbox (world o) ++ [map (buildMessage Getenv) batch]))
          end).
  rewrite Hrelay.
  eexists. split; [reflexivity |]. cbn [returned world].
  split; [reflexivity |]. split; [reflexivity |].
  intros day'.
  destruct (run_LockFree (server gen upd relay) _ LockFree_listMailMessages false
              (mkWorld (table (world o)) day' (outbox (world o))))
    as (o2 & Ho2 & _ & _).
  exists o2. split; [exact Ho2 |]. split.
  - intros -> Hidem.
    pose proof (fetch_on_server_result false w o Ho) as H1.
    pose proof (fetch_on_server_result false _ o2 Ho2) as H2.
    cbn [table clock outbox] in H2.
    rewrite Hidem in H2. destruct H2 as [Hr2 Hw2].
    destruct (gen (table w)) as [e|tb]; destruct H1 as [Hr1 Hw1]; [congruence |].
    rewrite Hw1 in Hr2, Hw2 |- *. cbn [table clock outbox] in Hr2, Hw2 |- *.
    split; [congruence | exact Hw2].
  - intros Hday batch2 Hr2 m Hin Hin2.
    pose proof (fetched_on_the_day false w o batch Ho Hr) as Hd1.
    pose proof (fetched_on_the_day false _ o2 batch2 Ho2 Hr2) as Hd2.
    cbn [clock] in Hd2.
    rewrite Forall_forall in Hd1, Hd2.
    specialize (Hd1 m Hin). specialize (Hd2 m Hin2). congruence.
Qed.

(** The cap of a cycle.  Whatever the table holds, a cycle hands at most one
    batch to the relay, of at most a hundred emails, and makes at most a
    hundred commit calls. *)
Theorem cycle_handles_at_most_100_messages (Getenv : string -> string) (w : World) :
  exists out,
    run (server gen upd relay) (Send Getenv) false w = Some out
    /\ length (transportBatches (trace out)) <= 1
    /\ Forall (fun b => length b <= 100) (transportBatches (trace out))
    /\ calls isCommitCall (trace out) <= 100.
Proof.
  destruct (Send_cases (server gen upd relay) Getenv w) as (o & Ho & Hcases).
  destruct (fetch_calls _ false w o Ho) as [_ Hc].
  destruct (filter_commit_fetch _ false w o Ho) as [_ Htb].
  assert (Hcap : forall batch, returned o = inr batch -> length batch <= 100).
  { intros batch Hr.
    destruct (fetch_on_server gen upd relay false w o batch Ho Hr)
      as (tb & rows & _ & _ & _ & _ & Hle & _). exact Hle. }
  destruct Hcases as [(err & Hr & Hs) | [(Hr & Hs) | [(batch & err & w2 & Hr & Hne & Hd & Hs)
                     | (batch & w2 & oc & Hr & Hne & Hd & Hoc & Hcommit & Hs)]]];
    eexists; (split; [exact Hs |]); cbn [trace].
  - change (ObsLock :: trace o ++ [ObsUnlock]) with ([ObsLock] ++ trace o ++ [ObsUnlock]).
    rewrite !transportBatches_app, !calls_app, Htb, Hc. cbn.
    split; [lia |]. split; [constructor | lia].
  - change (ObsLock :: trace o ++ [ObsUnlock]) with ([ObsLock] ++ trace o ++ [ObsUnlock]).
    rewrite !transportBatches_app, !calls_app, Htb, Hc. cbn.
    split; [lia |]. split; [constructor | lia].
  - match goal with
    | |- context [ObsLock :: trace o ++ ?t] =>
        change (ObsLock :: trace o ++ t) with ([ObsLock] ++ trace o ++ t)
    end.
    rewrite !transportBatches_app, !calls_app, Htb, Hc. cbn.
    split; [lia |]. split; [|lia].
    constructor; [|constructor]. rewrite length_map. now apply Hcap.
  - assert (Hoc_commit : calls isCommitCall (trace oc) <= length batch
                         /\ transportBatches (trace oc) = []).
    { destruct Hcommit as [(_ & ->) | (pre & m & post & err & -> & _ & ->)].
      - destruct (calls_commitCalls batch) as [-> _].
        split; [lia | apply transportBatches_commits].
      - rewrite calls_app, transportBatches_app, transportBatches_commits.
        destruct (calls_commitCalls pre) as [-> _].
        change (calls isCommitCall [commitCall m (Some err)]) with 1.
        rewrite length_app. cbn [length]. split; [lia | reflexivity]. }
    destruct Hoc_commit as [Hle Hnone].
    match goal with
    | |- context [ObsLock :: trace o ++ ?d :: trace oc ++ ?u] =>
        change (ObsLock :: trace o ++ d :: trace oc ++ u)
          with ([ObsLock] ++ trace o ++ [d] ++ trace oc ++ u)
    end.
    rewrite !transportBatches_app, !calls_app, Htb, Hc, Hnone. cbn.
    specialize (Hcap batch Hr).
    split; [lia |]. split; [|lia].
    constructor; [|constructor]. now rewrite length_map.
Qed.

End OnServer.

Lemma fetch_scannable_witness :
  exists o,
    run sample.healthy listMailMessages false cases.worldPoisoned = Some o
    /\ ((exists ms, returned o = inr ms)
        <-> Forall (fun r => selected (clock cases.worldPoisoned) r -> scannable r)
              (table cases.worldPoisoned)).
Proof.
  apply (fetch_succeeds_iff_selected_rows_scannable sample.keepTable sample.markSent
           sample.acceptAll cases.worldPoisoned (table cases.worldPoisoned)).
  - reflexivity.
  - vm_compute. lia.
Defined.

(** The poisoned table: the row without transaction number makes the fetch
    fail although the two other rows of the day are sound. *)
Example poisoned_fetch :
  exists o err,
    run sample.healthy listMailMessages false cases.worldPoisoned = Some o
    /\ returned o = inl err
    /\ Error err
       = "failed to scan tb_getEmailWiseSend: sql: Scan error on column index 1, name "
           +:+ dquote +:+ "Txnno" +:+ dquote
           +:+ ": converting NULL to string is unsupported".
Proof. eexists. eexists. split; [vm_compute; reflexivity |]. split; reflexivity. Qed.

Lemma refused_batch_witness :
  exists o batch err,
    run sample.relayDown listMailMessages false sample.worldTwo = Some o
    /\ returned o = inr batch
    /\ map TxnNo batch = ["TX-3"; "TX-7"]
    /\ exists out,
        run sample.relayDown (Send sample.Getenv) false sample.worldTwo = Some out
        /\ returned out = Some err
        /\ world out = world o
        /\ forall day' : string,
             exists o2,
               run sample.relayDown listMailMessages false
                 (mkWorld (table (world out)) day' (outbox (world out))) = Some o2
               /\ (day' = clock sample.worldTwo ->
                   sample.keepTable (table (world out)) = inr (table (world out)) ->
                   returned o2 = inr batch /\ world o2 = world out)
               /\ (day' <> clock sample.worldTwo ->
                   forall batch2, returned o2 = inr batch2 ->
                   forall m, m ∈ batch -> m ∉ batch2).
Proof.
  eexists. eexists. eexists.
  split; [vm_compute; reflexivity |].
  split; [reflexivity |].
  split; [reflexivity |].
  apply (refused_batch_is_fetched_again_that_day_only sample.keepTable sample.markSent
           sample.refuseAll sample.Getenv sample.worldTwo);
    [vm_compute; reflexivity | reflexivity | discriminate | reflexivity].
Defined.

(** The sample batch, refused on 2026-10-30, is fetched again that day; on
    2026-10-31 the fetch returns nothing, although the rows are still
    flagged ADD. *)
Example refused_batch_next_day :
  exists out o2 o3,
    run sample.relayDown (Send sample.Getenv) false sample.worldTwo = Some out
    /\ returned out <> None
    /\ run sample.relayDown listMailMessages false
         (mkWorld (table (world out)) "2026-10-30" (outbox (world out))) = Some o2
    /\ map TxnNo (batchOf (returned o2)) = ["TX-3"; "TX-7"]
    /\ run sample.relayDown listMailMessages false
         (mkWorld (table (world out)) "2026-10-31" (outbox (world out))) = Some o3
    /\ returned o3 = inr []
    /\ map storage.rectype (table (world o3)) = [Some "ADD"; Some "ADD"; Some "ADD"].
Proof.
  do 3 eexists.
  split; [vm_compute; reflexivity |].
  split; [discriminate |].
  split; [vm_compute; reflexivity |].
  split; [reflexivity |].
  split; [vm_compute; reflexivity |].
  split; reflexivity.
Qed.

(** [ListMessages] on a database server: what it returns.  The messages are
    read from rows of the table that the generation procedure left, all
    flagged ADD with the day of the clock as date: at most a hundred, by
    ascending identifier, with the recipient lists parsed from the two raw
    columns.  A row flagged ADD for the day is missing only when a hundred
    rows with identifiers not above its own were returned.  Whether the
    recipient column is NULL plays no part. *)
Theorem ListMessages_returns_the_rows_flagged_for_the_day
    (gen : list storage.Row -> result (list storage.Row))
    (upd : string -> list storage.Row -> result (list storage.Row))
    (relay : mail.Dialer -> list mail.Message -> option error)
    (w : World) (o : Outcome (result (list Message)) World) (ms : list Message) :
  run (server gen upd relay) ListMessages false w = Some o ->
  returned o = inr ms ->
  exists tb rows,
    gen (table w) = inr tb
    /\ table (world o) = tb
    /\ Forall2 readFrom rows ms
    /\ length ms <= 100
    /\ StronglySorted Z.le (map ID ms)
    /\ Forall (fun r => r ∈ tb /\ selected (clock w) r) rows
    /\ (forall r, r ∈ tb -> selected (clock w) r ->
          r ∈ rows \/ (length ms = 100 /\ Forall (fun m => (ID m <= storage.TWID r)%Z) ms)).
Proof.
  intros HL Hr.
  destruct (run_ListMessages (server gen upd relay) w) as (o' & HL' & Ho).
  rewrite HL in HL'. injection HL' as <-.
  destruct (fetch_on_server gen upd relay false w o ms Ho Hr)
    as (tb & rows & H1 & H2 & _ & H3 & H4 & H5 & H6 & H7).
  exists tb, rows. repeat split; assumption.
Qed.

Lemma ListMessages_rows_witness :
  exists o ms,
    run sample.healthy ListMessages false sample.worldNull = Some o
    /\ returned o = inr ms
    /\ map ID ms = [5%Z; 7%Z]
    /\ exists tb rows,
        sample.keepTable (table sample.worldNull) = inr tb
        /\ table (world o) = tb
        /\ Forall2 readFrom rows ms
        /\ length ms <= 100
        /\ StronglySorted Z.le (map ID ms)
        /\ Forall (fun r => r ∈ tb /\ selected (clock sample.worldNull) r) rows
        /\ (forall r, r ∈ tb -> selected (clock sample.worldNull) r ->
              r ∈ rows
              \/ (length ms = 100 /\ Forall (fun m => (ID m <= storage.TWID r)%Z) ms)).
Proof.
  eexists. eexists.
  split; [vm_compute; reflexivity |].
  split; [reflexivity |].
  split; [reflexivity |].
  apply (ListMessages_returns_the_rows_flagged_for_the_day sample.keepTable sample.markSent
           sample.acceptAll sample.worldNull);
    [vm_compute; reflexivity | reflexivity].
Defined.

(** ** The mutex: who takes it *)

Section Mutex.

Context {W : Type} (h : Handler W).
Variable Getenv : string -> string.

Lemma LockFree_ListMessages : LockFree ListMessages.
Proof.
  unfold ListMessages. apply LockFree_bind; [apply LockFree_listMailMessages |].
  intros [err|ms]; constructor.
Qed.

(** [ListMessages] never touches the mutex: it runs to its end whether the
    mutex is held or not, leaves it as it was, and its first call, the
    generation procedure, can be made while a cycle of [Send] holds the
    mutex.  [Send], called while the mutex is held, performs no event at
    all.  So the serialization of cycles does not cover [ListMessages]. *)
Theorem ListMessages_does_not_take_the_mutex (l : bool) (w : W) :
  (exists o,
      run h ListMessages l w = Some o /\ mutex o = l
      /\ calls isMutexEvent (trace o) = 0)
  /\ (exists rest out w',
        pstep h ListMessages true w
        = Some (rest, true, w', ObsExec "EXEC dbo.pd_wiseSendEmail" [] out))
  /\ pstep h (Send Getenv) true w = None
  /\ run h (Send Getenv) true w = None.
Proof.
  split; [|split; [|split; reflexivity]].
  - destruct (run_LockFree h _ LockFree_ListMessages l w) as (o & Ho & Hm & _).
    exists o. split; [exact Ho |]. split; [exact Hm |].
    apply (LockFree_trace h _ LockFree_ListMessages l w o Ho).
  - unfold ListMessages, listMailMessages. cbn.
    destruct (h _ (ExecContext "EXEC dbo.pd_wiseSendEmail" []) w) as [out w'].
    do 3 eexists. reflexivity.
Qed.

(** A call of [Send] with the mutex free always returns, with the mutex
    free again, after exactly one [Lock] and one [Unlock]. *)
Lemma Send_completes (w : W) :
  exists out,
    run h (Send Getenv) false w = Some out /\ mutex out = false
    /\ calls isLock (trace out) = 1 /\ calls isUnlock (trace out) = 1.
Proof.
  destruct (run_LockFree h _ (LockFree_sendLocked Getenv) true w) as (o & Ho & _ & _).
  destruct (LockFree_trace h _ (LockFree_sendLocked Getenv) true w o Ho) as (H1 & H2 & _).
  unfold Send. rewrite run_bind.
  change (run h (trigger Lock) false w) with (Some (mkOutcome tt true w [ObsLock])).
  cbn [returned mutex world trace].
  rewrite run_bind, Ho.
  destruct (run_LockFree h _ (LockFree_sendLocked Getenv) true w) as (o' & Ho' & Hm & _).
  rewrite Ho in Ho'. injection Ho' as <-.
  destruct o as [r m w' t]. cbn [returned mutex world trace] in *. subst m.
  rewrite run_bind.
  change (run h (trigger Unlock) true w') with (Some (mkOutcome tt false w' [ObsUnlock])).
  cbn [returned mutex world trace run]. eexists. split; [reflexivity |].
  cbn [mutex trace]. split; [reflexivity |].
  change ([ObsLock] ++ t ++ [ObsUnlock] ++ []) with ([ObsLock] ++ t ++ [ObsUnlock]).
  rewrite !calls_app, H1, H2. split; reflexivity.
Qed.

(** The scheduled job drops the error of [Send], so a cycle that fails does
    not prevent the following ones: [n] runs of the job, one after the
    other, all take place, each taking the mutex once and releasing it, and
    the mutex is free at the end, whatever the database and the relay
    answered in any of them. *)
Theorem every_tick_runs_a_whole_cycle (n : nat) (w : W) :
  exists out,
    run h (ticks Getenv n) false w = Some out
    /\ mutex out = false
    /\ calls isLock (trace out) = n
    /\ calls isUnlock (trace out) = n.
Proof.
  revert w. induction n as [|n IH]; intros w.
  - eexists. split; [reflexivity |]. repeat split.
  - cbn [ticks]. unfold cronJob. rewrite !run_bind.
    destruct (Send_completes w) as (o1 & Ho1 & Hm1 & HL1 & HU1).
    rewrite Ho1. destruct o1 as [r1 m1 w1 t1]. cbn [returned mutex world trace] in *.
    subst m1. cbn [run returned mutex world trace].
    destruct (IH w1) as (o2 & Ho2 & Hm2 & HL2 & HU2).
    rewrite Ho2. eexists. split; [reflexivity |]. cbn [mutex trace].
    split; [exact Hm2 |].
    rewrite !calls_app, HL1, HU1, HL2, HU2. cbn. split; reflexivity.
Qed.

End Mutex.

(** ** main.go: getEnv and the HTTP error handler *)

(** [getEnv] falls back only when the variable is not set: a variable that
    is set, even to the empty string, gives its value; with the empty
    string as fallback [getEnv] is [os.Getenv].  So the server listens on
    ":8089" when PORT is unset (or is 8089), and on ":" when PORT is set to
    the empty string. *)
Theorem getEnv_falls_back_only_when_unset (env : os.Environ) (key fallback : string) :
  (getEnv env key fallback = fallback
   <-> env !! key = None \/ env !! key = Some fallback)
  /\ getEnv env key EmptyString = os.Getenv env key
  /\ (listenAddress env = ":8089"
      <-> env !! "PORT" = None \/ env !! "PORT" = Some "8089")
  /\ (listenAddress env = ":" <-> env !! "PORT" = Some EmptyString).
Proof.
  assert (Hget : forall k fb,
             getEnv env k fb = match env !! k with Some v => v | None => fb end).
  { intros k fb. unfold getEnv, os.LookupEnv. destruct (env !! k); reflexivity. }
  split; [|split; [|split]].
  - rewrite Hget. destruct (env !! key) as [v|].
    + split; [intros ->; now right | intros [|[= ->]]; [discriminate | reflexivity]].
    + split; [now left | reflexivity].
  - rewrite Hget. unfold os.Getenv, os.LookupEnv. destruct (env !! key); reflexivity.
  - unfold listenAddress. rewrite Hget.
    change ":8089" with (":" +:+ "8089").
    destruct (env !! "PORT") as [v|].
    + split.
      * intros Heq. apply (inj (String.app ":")) in Heq. subst. now right.
      * intros [|[= ->]]; [discriminate | reflexivity].
    + split; [now left | reflexivity].
  - unfold listenAddress. rewrite Hget.
    change ":" with (":" +:+ EmptyString) at 2.
    destruct (env !! "PORT") as [v|].
    + split.
      * intros Heq. apply (inj (String.app ":")) in Heq. now subst.
      * intros [= ->]. reflexivity.
    + split; discriminate.
Qed.

Example listenAddress_empty_port : listenAddress cases.environ = ":".
Proof. reflexivity. Qed.

(** The status line and the body agree, and the status is one of twelve.
    For every error, the HTTP status that the handler writes is the code
    field of the body it writes; when the body is the protobuf message, that
    status is the HTTP translation of the gRPC code in the body; and the
    status is always one of 200, 400, 401, 403, 404, 409, 429, 499, 500,
    501, 503, 504. *)
Theorem httpErr_status_matches_body (err : handlerError) :
  match httpErr err with
  | JSONBlob httpStatus body =>
      httpStatus = pbCode body /\ httpStatus = HTTPStatusFromCode (pbStatus body)
  | JSON httpStatus code status _ =>
      httpStatus = code /\ httpStatus = 500%Z /\ status = "INTERNAL_ERROR"
  end
  /\ httpStatusOf (httpErr err)
     ∈ [200; 400; 401; 403; 404; 409; 429; 499; 500; 501; 503; 504]%Z.
Proof.
  destruct err as [[code msg details] | code msg | e]; cbn.
  - split; [split; reflexivity |]. destruct code; cbn; set_solver.
  - repeat case_decide; cbn; (split; [split; reflexivity | set_solver]).
  - split; [repeat split | set_solver].
Qed.

(** An error of the web framework is answered with its own code only when
    that code is 404 or 429 (or is 500 already); every other code (400, 401,
    405, 413, ...) is answered as 500 with "Unknown error!".  The message
    carried by the error never reaches the response. *)
Theorem httpErr_reports_echo_errors_as_404_429_or_500 (code : Z) (message : string) :
  httpErr (EchoHTTPError code message)
  = (if decide (code = 404%Z) then
       JSONBlob 404 (mkHspbError 404 "Not found!" codes.NotFound [])
     else if decide (code = 429%Z) then
       JSONBlob 429 (mkHspbError 429 "Too many requests." codes.ResourceExhausted [])
     else JSONBlob 500 (mkHspbError 500 "Unknown error!" codes.Unknown []))
  /\ (httpStatusOf (httpErr (EchoHTTPError code message)) = code
      <-> code = 404%Z \/ code = 429%Z \/ code = 500%Z)
  /\ forall message', httpErr (EchoHTTPError code message')
                      = httpErr (EchoHTTPError code message).
Proof.
  split; [|split].
  - unfold httpErr. repeat case_decide; reflexivity.
  - unfold httpErr. repeat case_decide; cbn; subst; split; intros; lia.
  - reflexivity.
Qed.

(** The health endpoint answers 200 when the ping succeeds and 500 with
    INTERNAL_ERROR when it fails, whatever the error says. *)
Example healthz_answers (cause : error) :
  healthz None = JSON 200 200 "OK" "Available!"
  /\ healthz (Some cause) = JSON 500 500 "INTERNAL_ERROR" "An internal error occurred".
Proof. split; reflexivity. Qed.
